(** * Telemetry store of the Hyperloop laptop web service

    A shallow embedding of [web_service_laptop/pc_database.js] (class
    [GNCDatabase]) and of the REST binding in
    [web_service_laptop/pc_server.js], followed by the properties of the
    telemetry contract that hold (or fail) on that code.

    Layout:
    - [JsRegExp]: the fragment of ECMAScript regular expressions used by the
      two module-level patterns, with the [lastIndex] state of the [g] flag;
    - [Mongo]: the part of the MongoDB driver the class talks to;
    - [Database]: the class [GNCDatabase], method by method;
    - [Server]: the route handlers and [getError];
    - the theorems. *)

From Stdlib Require Import Ascii String.
From stdpp Require Import base option list strings gmap fin_maps.

Local Open Scope string_scope.
Local Open Scope list_scope.

(** ** ECMAScript regular expressions with the global flag *)

Module JsRegExp.

(** JavaScript strings are modelled as Rocq strings of 8-bit code units;
    connection strings are ASCII URLs. *)

(** Single-character matchers: a literal, [.] and [\w]. *)
Inductive atom : Type :=
| Lit (c : ascii)
| Dot
| Word.

(** Pattern nodes, in source order. The capture parentheses are kept as
    [Open]/[Close] marks around the nodes they enclose. *)
Inductive node : Type :=
| One (a : atom)
| Star (a : atom)
| Plus (a : atom)
| Bol
| Eol
| Open
| Close.

Definition code (c : ascii) : nat := nat_of_ascii c.

(** [\w] is [A-Za-z0-9_]. *)
Definition is_word (c : ascii) : bool :=
  let n := code c in
  (((65 <=? n) && (n <=? 90)) || ((97 <=? n) && (n <=? 122))
   || ((48 <=? n) && (n <=? 57)) || (n =? 95))%nat.

(** Without the [s] flag, [.] matches everything but a line terminator. *)
Definition is_line_terminator (c : ascii) : bool :=
  ((code c =? 10) || (code c =? 13))%nat.

Definition atom_matches (a : atom) (c : ascii) : bool :=
  match a with
  | Lit c' => if decide (c = c') then true else false
  | Dot => negb (is_line_terminator c)
  | Word => is_word c
  end.

(** Capture 1 as a pair of offsets; [cap_start] is set at [Open]. *)
Record captures : Type := Captures {
  cap_start : nat;
  cap_range : option (nat * nat)
}.

Definition no_captures : captures := Captures 0 None.

(** Greedy repetition of one atom: take the longest run first, and give
    characters back one at a time while the continuation [k] fails. *)
Fixpoint star_loop {R : Type} (a : atom) (k : nat -> list ascii -> option R)
    (pos : nat) (rest : list ascii) : option R :=
  match rest with
  | c :: rest' =>
      if atom_matches a c then
        match star_loop a k (S pos) rest' with
        | Some r => Some r
        | None => k pos rest
        end
      else k pos rest
  | [] => k pos rest
  end.

(** Backtracking matcher anchored at offset [pos]; [rest] is the input
    from [pos] on. Returns the end offset and the captures. *)
Fixpoint run (ns : list node) (pos : nat) (rest : list ascii)
    (caps : captures) : option (nat * captures) :=
  match ns with
  | [] => Some (pos, caps)
  | One a :: ns' =>
      match rest with
      | c :: rest' =>
          if atom_matches a c then run ns' (S pos) rest' caps else None
      | [] => None
      end
  | Star a :: ns' =>
      star_loop a (fun p r => run ns' p r caps) pos rest
  | Plus a :: ns' =>
      match rest with
      | c :: rest' =>
          if atom_matches a c
          then star_loop a (fun p r => run ns' p r caps) (S pos) rest'
          else None
      | [] => None
      end
  | Bol :: ns' => if (pos =? 0)%nat then run ns' pos rest caps else None
  | Eol :: ns' =>
      match rest with
      | [] => run ns' pos rest caps
      | _ :: _ => None
      end
  | Open :: ns' => run ns' pos rest (Captures pos (cap_range caps))
  | Close :: ns' =>
      run ns' pos rest (Captures (cap_start caps) (Some (cap_start caps, pos)))
  end.

(** A [RegExp] object: its pattern and the mutable [lastIndex]. All
    patterns here carry the [g] flag. *)
Record RegExp : Type := mkRegExp {
  source : list node;
  lastIndex : nat
}.

(** The array returned by a successful [exec]: element 0 is the whole
    match, element 1 the first capture ([None] is [undefined]). *)
Record MatchArray : Type := mkMatch {
  whole : string;
  group1 : option string
}.

Definition substring (s : list ascii) (from to : nat) : string :=
  string_of_list_ascii (take (to - from) (drop from s)).

(** Try the start offsets [i, i+1, ...] in turn; [rest] is the input from
    [i] on. One more attempt is made at the end of the input. *)
Fixpoint scan (ns : list node) (i : nat) (rest : list ascii) : option (nat * nat * captures) :=
  match run ns i rest no_captures with
  | Some (e, caps) => Some (i, e, caps)
  | None =>
      match rest with
      | [] => None
      | _ :: rest' => scan ns (S i) rest'
      end
  end.

(** [RegExp.prototype.exec] for a global pattern: start at [lastIndex];
    on success move [lastIndex] to the end of the match, on failure (or
    when [lastIndex] is past the end) reset it to 0 and return [null]. *)
Definition exec (re : RegExp) (str : string) : option MatchArray * RegExp :=
  let s := list_ascii_of_string str in
  if (length s <? lastIndex re)%nat then (None, mkRegExp (source re) 0)
  else
    match scan (source re) (lastIndex re) (drop (lastIndex re) s) with
    | Some (b, e, caps) =>
        (Some (mkMatch (substring s b e)
                 (match cap_range caps with
                  | Some (cb, ce) => Some (substring s cb ce)
                  | None => None
                  end)),
         mkRegExp (source re) e)
    | None => (None, mkRegExp (source re) 0)
    end.

End JsRegExp.

(** ** Values thrown and logged by the JavaScript code *)

(** What the code throws: a template string ([throw `...`]), an object
    literal [{isDomain, errorCode, message}], or an [Error] instance raised
    by the runtime or by the driver ([TypeError], [MongoError]). *)
Inductive JsError : Type :=
| ThrowString (s : string)
| ThrowObject (isDomain : bool) (errorCode message : string)
| ThrowError (name message : string).

(** [err.message]; a string primitive has none. *)
Definition error_message (e : JsError) : option string :=
  match e with
  | ThrowString _ => None
  | ThrowObject _ _ m => Some m
  | ThrowError _ m => Some m
  end.

(** Interpolation of a possibly [undefined] string in a template literal. *)
Definition interpolate (o : option string) : string :=
  match o with
  | Some s => s
  | None => "undefined"
  end.

(** An argument of [console.log]. *)
Inductive Logged : Type :=
| LogString (s : string)
| LogError (e : JsError).

(** How an [async] method ends: it resolves, it rejects, or the process is
    gone ([process.exit()]). *)
Inductive outcome (A : Type) : Type :=
| Ret (a : A)
| Throw (e : JsError)
| Exit.
Arguments Ret {A} a.
Arguments Throw {A} e.
Arguments Exit {A}.

(** ** The MongoDB driver, as far as the class uses it *)

Module Mongo.

(** A stored record. [_id] stands for the ObjectId the driver assigns on
    insertion; ObjectIds of one client grow with every insertion, which
    is what [sort: {_id: -1}] relies on. *)
Record Document : Type := mkDocument {
  _id : nat;
  sensorID : string;
  sensorValue : string;
  seqNum : string
}.

(** The database [databaseName] on the server, and the client's link to
    it. [reachable] is false while the backend cannot be reached (an I/O
    fault); [connected] is the state of the client's topology. *)
Record Driver : Type := mkDriver {
  reachable : bool;
  connected : bool;
  collections : gmap string (list Document);
  next_oid : nat
}.

Definition io_ok (d : Driver) : bool := reachable d && connected d.

Definition network_error : JsError :=
  ThrowError "MongoNetworkError" "failed to connect to server".

Definition topology_error : JsError :=
  ThrowError "MongoError" "Topology was destroyed".

Definition ns_not_found : JsError :=
  ThrowError "MongoError" "ns not found".

(** [MongoClient.connect(url, options)] *)
Definition connect (d : Driver) : outcome unit * Driver :=
  if reachable d
  then (Ret (), mkDriver (reachable d) true (collections d) (next_oid d))
  else (Throw network_error, d).

(** [client.isConnected()] *)
Definition isConnected (d : Driver) : bool := connected d.

(** [client.close()]: closing a closed client is accepted. *)
Definition close (d : Driver) : outcome unit * Driver :=
  (Ret (), mkDriver (reachable d) false (collections d) (next_oid d)).

(** The database with collection [name]: an existing collection is kept
    as it is, a missing one is created empty. *)
Definition ensure_collection (name : string) (d : Driver) : Driver :=
  mkDriver (reachable d) (connected d)
    (match collections d !! name with
     | Some _ => collections d
     | None => <[name := []]> (collections d)
     end)
    (next_oid d).

(** [db.createCollection(name)]: creates the collection unless it exists
    and returns its handle, here its name. *)
Definition createCollection (name : string) (d : Driver)
    : outcome string * Driver :=
  if io_ok d then (Ret name, ensure_collection name d)
  else (Throw topology_error, d).

(** The database after one more record in collection [name]: the record
    gets the next ObjectId; a missing collection is created. *)
Definition append_document (name : string) (sid val seq : string)
    (d : Driver) : Driver :=
  let doc := mkDocument (next_oid d) sid val seq in
  let old := default [] (collections d !! name) in
  mkDriver (reachable d) (connected d)
    (<[name := (old ++ [doc])%list]> (collections d)) (S (next_oid d)).

(** [collection.insertOne({sensorID, sensorValue, seqNum})] *)
Definition insertOne (name : string) (sid val seq : string) (d : Driver)
    : outcome unit * Driver :=
  if io_ok d then (Ret (), append_document name sid val seq d)
  else (Throw topology_error, d).

(** The record with the greatest [_id] among [docs], if any: the first
    record of the cursor sorted by [{_id: -1}]. *)
Fixpoint greatest_id (docs : list Document) : option Document :=
  match docs with
  | [] => None
  | doc :: docs' =>
      match greatest_id docs' with
      | Some best => if (_id doc <? _id best)%nat then Some best else Some doc
      | None => Some doc
      end
  end.

Definition matches (sid : string) (doc : Document) : bool :=
  if decide (sensorID doc = sid) then true else false.

(** [collection.findOne({sensorID: sid}, {sort: {_id: -1}, limit: 1})];
    [None] is [null]. A collection that does not exist has no records. *)
Definition findOne (name : string) (sid : string) (d : Driver)
    : outcome (option Document) * Driver :=
  if io_ok d then
    (Ret (greatest_id
            (List.filter (matches sid) (default [] (collections d !! name)))),
     d)
  else (Throw topology_error, d).

(** [db.listCollections().toArray()], reduced to the names. *)
Definition listCollections (d : Driver) : outcome (list string) * Driver :=
  if io_ok d then (Ret (fst <$> map_to_list (collections d)), d)
  else (Throw topology_error, d).

(** [db.dropCollection(name)] *)
Definition dropCollection (name : string) (d : Driver)
    : outcome unit * Driver :=
  if io_ok d then
    match collections d !! name with
    | Some _ =>
        (Ret (),
         mkDriver (reachable d) (connected d)
           (delete name (collections d)) (next_oid d))
    | None => (Throw ns_not_found, d)
    end
  else (Throw topology_error, d).

End Mongo.

(** ** The class [GNCDatabase] of pc_database.js *)

Module Database.

Import JsRegExp.

(** The instance fields. [mongoDBConnection] and [databaseConnection]
    record whether the field holds an object or is still [undefined]; a
    collection field holds the handle of a named collection. *)
Record GNCDatabase : Type := mkGNCDatabase {
  databaseName : option string;
  serverUrl : option string;
  mongoDBConnection : bool;
  databaseConnection : bool;
  tempCollection : option string;
  distCollection : option string;
  speedCollection : option string
}.

(** The process: the driver and the database behind it, the instance, the
    console, and the side log kept by the file writer. *)
Record World : Type := mkWorld {
  driver : Mongo.Driver;
  this : GNCDatabase;
  console : list Logged;
  files : list (string * string * string)
}.

(** Computations over the process state that may reject or exit. *)
Definition M (A : Type) : Type := World -> outcome A * World.

Definition ret {A : Type} (a : A) : M A := fun w => (Ret a, w).

Definition bind {A B : Type} (m : M A) (k : A -> M B) : M B :=
  fun w =>
    match m w with
    | (Ret a, w') => k a w'
    | (Throw e, w') => (Throw e, w')
    | (Exit, w') => (Exit, w')
    end.

Definition throw {A : Type} (e : JsError) : M A := fun w => (Throw e, w).

(** [process.exit()] *)
Definition process_exit {A : Type} : M A := fun w => (Exit, w).

(** [try { body } catch (err) { handler err }] *)
Definition try_catch {A : Type} (body : M A) (handler : JsError -> M A)
    : M A :=
  fun w =>
    match body w with
    | (Ret a, w') => (Ret a, w')
    | (Throw e, w') => handler e w'
    | (Exit, w') => (Exit, w')
    end.

Declare Scope js_scope.
Delimit Scope js_scope with js.
Notation "x <- m ;; k" := (bind m (fun x => k))
  (at level 100, m at next level, right associativity) : js_scope.
Notation "m ;; k" := (bind m (fun _ => k))
  (at level 100, right associativity) : js_scope.
Local Open Scope js_scope.

Definition console_log (l : Logged) : M unit :=
  fun w => (Ret (), mkWorld (driver w) (this w) (console w ++ [l])%list (files w)).

Definition get_this : M GNCDatabase := fun w => (Ret (this w), w).

Definition set_this (f : GNCDatabase -> GNCDatabase) : M unit :=
  fun w => (Ret (), mkWorld (driver w) (f (this w)) (console w) (files w)).

(** A call into the driver. *)
Definition call {A : Type} (op : Mongo.Driver -> outcome A * Mongo.Driver)
    : M A :=
  fun w =>
    let (r, d) := op (driver w) in
    (r, mkWorld d (this w) (console w) (files w)).

(** Calling a method on a field that is [undefined]. *)
Definition undefined_receiver (method : string) : JsError :=
  ThrowError "TypeError"
    ("Cannot read property '" +:+ method +:+ "' of undefined").

(** The two module-level patterns, shared by every construction.
    [REG_DATABASE_NAME]: a slash, a captured run of one or more word
    characters, the end of the input. [REG_SERVER_URL]: captured, the
    start of the input and a greedy run of any characters; then a slash.
    Both have the [g] flag. *)
Record Patterns : Type := mkPatterns {
  REG_DATABASE_NAME : RegExp;
  REG_SERVER_URL : RegExp
}.

Definition slash : ascii := "/"%char.

Definition database_name_pattern : list node :=
  [One (Lit slash); Open; Plus Word; Close; Eol].

Definition server_url_pattern : list node :=
  [Open; Bol; Star Dot; Close; One (Lit slash)].

Definition module_patterns : Patterns :=
  mkPatterns (mkRegExp database_name_pattern 0)
    (mkRegExp server_url_pattern 0).

Definition not_iterable : JsError :=
  ThrowError "TypeError" "object null is not iterable".

(** [constructor(dbUrl)]: each line destructures the result of [exec];
    destructuring [null] throws. *)
Definition constructor (dbUrl : string) (ps : Patterns)
    : outcome GNCDatabase * Patterns :=
  let (r1, re1) := exec (REG_DATABASE_NAME ps) dbUrl in
  match r1 with
  | None => (Throw not_iterable, mkPatterns re1 (REG_SERVER_URL ps))
  | Some m1 =>
      let (r2, re2) := exec (REG_SERVER_URL ps) dbUrl in
      match r2 with
      | None => (Throw not_iterable, mkPatterns re1 re2)
      | Some m2 =>
          (Ret (mkGNCDatabase (group1 m1) (group1 m2)
                  false false None None None),
           mkPatterns re1 re2)
      end
  end.

(** The three metrics; the source repeats each method once per metric. *)
Inductive Metric : Type := Temperature | Distance | Speed.

#[global] Instance Metric_eq_dec : EqDecision Metric.
Proof. solve_decision. Defined.

(** Name of the metric's collection, as passed to [createCollection]. *)
Definition collection_name (m : Metric) : string :=
  match m with
  | Temperature => "Temperature"
  | Distance => "Distance"
  | Speed => "Speed"
  end.

(** Name of the metric in the error messages. *)
Definition metric_label (m : Metric) : string :=
  match m with
  | Temperature => "temperature"
  | Distance => "distance"
  | Speed => "speed"
  end.

Definition reader_name (m : Metric) : string :=
  match m with
  | Temperature => "readLastTemp"
  | Distance => "readLastDist"
  | Speed => "readLastSpeed"
  end.

(** The instance field holding the metric's collection. *)
Definition collection_field (m : Metric) (g : GNCDatabase) : option string :=
  match m with
  | Temperature => tempCollection g
  | Distance => distCollection g
  | Speed => speedCollection g
  end.

Definition set_collection_field (m : Metric) (h : string) (g : GNCDatabase)
    : GNCDatabase :=
  match m with
  | Temperature =>
      mkGNCDatabase (databaseName g) (serverUrl g) (mongoDBConnection g)
        (databaseConnection g) (Some h) (distCollection g) (speedCollection g)
  | Distance =>
      mkGNCDatabase (databaseName g) (serverUrl g) (mongoDBConnection g)
        (databaseConnection g) (tempCollection g) (Some h) (speedCollection g)
  | Speed =>
      mkGNCDatabase (databaseName g) (serverUrl g) (mongoDBConnection g)
        (databaseConnection g) (tempCollection g) (distCollection g) (Some h)
  end.

Definition write_error (g : GNCDatabase) (m : Metric) : JsError :=
  ThrowString ("One or more errors in writing Database: "
               +:+ interpolate (databaseName g)
               +:+ " Collection: " +:+ metric_label m).

Definition read_error_text (g : GNCDatabase) (m : Metric) : string :=
  "One or more errors in reading Database: "
  +:+ interpolate (databaseName g) +:+ " Collection: " +:+ metric_label m.

Definition read_error (g : GNCDatabase) (m : Metric) : JsError :=
  ThrowString (read_error_text g m).

Definition no_document (m : Metric) (sensorId : string) : JsError :=
  ThrowString ("No document satisfies the query - " +:+ reader_name m
               +:+ "() sensorID " +:+ sensorId).

(** [writeTemp], [writeDist], [writeSpeed]: the insertion is wrapped in a
    [try]; whatever it throws is logged and replaced by the write error
    of the metric. *)
Definition write (m : Metric) (sensorId sensorValue seqNum : string)
    : M unit :=
  try_catch
    (g <- get_this ;;
     match collection_field m g with
     | Some h => call (Mongo.insertOne h sensorId sensorValue seqNum)
     | None => throw (undefined_receiver "insertOne")
     end)
    (fun err =>
       console_log (LogError err) ;;
       g <- get_this ;;
       throw (write_error g m)).

Definition writeTemp := write Temperature.
Definition writeDist := write Distance.
Definition writeSpeed := write Speed.

(** The object [{sensorValue, seqNum}] returned by a read. *)
Record Reading : Type := mkReading {
  reading_sensorValue : string;
  reading_seqNum : string
}.

(** [readLastTemp], [readLastDist], [readLastSpeed]: the query and the
    [throw] for a missing document both sit inside the [try]; the
    [catch] logs what it caught and throws the read error of the
    metric. *)
Definition readLast (m : Metric) (sensorId : string) : M Reading :=
  try_catch
    (g <- get_this ;;
     document <-
       match collection_field m g with
       | Some h => call (Mongo.findOne h sensorId)
       | None => throw (undefined_receiver "findOne")
       end ;;
     match document with
     | None => throw (no_document m sensorId)
     | Some doc =>
         ret (mkReading (Mongo.sensorValue doc) (Mongo.seqNum doc))
     end)
    (fun err =>
       console_log (LogError err) ;;
       g <- get_this ;;
       throw (read_error g m)).

Definition readLastTemp := readLast Temperature.
Definition readLastDist := readLast Distance.
Definition readLastSpeed := readLast Speed.

Definition nl : string := String (ascii_of_nat 10) EmptyString.

Definition set_mongoDBConnection (g : GNCDatabase) : GNCDatabase :=
  mkGNCDatabase (databaseName g) (serverUrl g) true (databaseConnection g)
    (tempCollection g) (distCollection g) (speedCollection g).

Definition set_databaseConnection (g : GNCDatabase) : GNCDatabase :=
  mkGNCDatabase (databaseName g) (serverUrl g) (mongoDBConnection g) true
    (tempCollection g) (distCollection g) (speedCollection g).

(** [createCollection(collectionName)] *)
Definition createCollection (collectionName : string) : M string :=
  g <- get_this ;;
  if databaseConnection g
  then call (Mongo.createCollection collectionName)
  else throw (undefined_receiver "createCollection").

Definition assertion_error : JsError :=
  ThrowError "AssertionError"
    "The expression evaluated to a falsy value".

(** [init()]: connect or exit; open the database and the three
    collections; write the twelve default records. *)
Definition init : M unit :=
  try_catch
    (call Mongo.connect ;; set_this set_mongoDBConnection)
    (fun err =>
       console_log
         (LogString
            (interpolate (error_message err) +:+ nl +:+
             "Database FAILED to connect, check if server is online or port is correct")) ;;
       process_exit) ;;
  g <- get_this ;;
  (if mongoDBConnection g then ret () else throw assertion_error) ;;
  isConnected <- call (fun d => (Ret (Mongo.isConnected d), d)) ;;
  (if isConnected : bool
   then console_log (LogString "Database Connected")
   else (console_log (LogString "Database NOT Connected") ;; process_exit)) ;;
  set_this set_databaseConnection ;;
  (h <- createCollection "Temperature" ;;
   set_this (set_collection_field Temperature h)) ;;
  (h <- createCollection "Distance" ;;
   set_this (set_collection_field Distance h)) ;;
  (h <- createCollection "Speed" ;;
   set_this (set_collection_field Speed h)) ;;
  writeTemp "1" "-1" "0" ;;
  writeTemp "2" "-1" "0" ;;
  writeTemp "3" "-1" "0" ;;
  writeTemp "4" "-1" "0" ;;
  writeDist "1" "-1" "0" ;;
  writeDist "2" "-1" "0" ;;
  writeDist "3" "-1" "0" ;;
  writeDist "4" "-1" "0" ;;
  writeSpeed "1" "-1" "0" ;;
  writeSpeed "2" "-1" "0" ;;
  writeSpeed "3" "-1" "0" ;;
  writeSpeed "4" "-1" "0".

(** [close()] *)
Definition close : M unit :=
  g <- get_this ;;
  (if mongoDBConnection g then call Mongo.close else ret ()) ;;
  console_log (LogString "MongoDB connection closed").

(** [array.entries()]: the pairs [[index, element]]. *)
Definition entries {A : Type} (l : list A) : list (nat * A) :=
  imap (fun i x => (i, x)) l.

(** The [while] loop of [clear]: an entry is an array, hence truthy, so
    the loop ends exactly when the iterator is exhausted. *)
Fixpoint drop_entries (iter : list (nat * string)) : M unit :=
  match iter with
  | [] => ret ()
  | collectionEntry :: iter' =>
      call (Mongo.dropCollection (snd collectionEntry)) ;;
      drop_entries iter'
  end.

(** [clear()] *)
Definition clear : M unit :=
  g <- get_this ;;
  if databaseConnection g then
    collectionArray <- call Mongo.listCollections ;;
    drop_entries (entries collectionArray)
  else ret ().

(** The methods of the class that take no argument, by property name;
    [None] for a property the instance does not have. *)
Definition nullary_method (name : string) : option (M unit) :=
  if decide (name = "init") then Some init
  else if decide (name = "close") then Some close
  else if decide (name = "clear") then Some clear
  else None.

(** [pcDatabase.name()]: calling a property that is [undefined] throws. *)
Definition invoke (name : string) : M unit :=
  match nullary_method name with
  | Some f => f
  | None =>
      throw (ThrowError "TypeError"
               ("app.locals.pcDatabase." +:+ name +:+ " is not a function"))
  end.

End Database.

(** ** The routes of pc_server.js *)

Module Server.

Import Database.
Local Open Scope js_scope.

Definition OK : nat := 200.
Definition CREATED : nat := 201.
Definition BAD_REQUEST : nat := 400.
Definition NOT_FOUND : nat := 404.
Definition CONFLICT : nat := 409.
Definition SERVER_ERROR : nat := 500.

(** The object built by [getError]. *)
Record StatusReport : Type := mkStatusReport {
  status : nat;
  code : string;
  message : string
}.

(** [err.toString()] *)
Definition toString (err : JsError) : string :=
  match err with
  | ThrowString s => s
  | ThrowObject _ _ _ => "[object Object]"
  | ThrowError name msg => name +:+ ": " +:+ msg
  end.

(** [err.isDomain], as a condition. *)
Definition isDomain (err : JsError) : bool :=
  match err with
  | ThrowObject d _ _ => d
  | _ => false
  end.

(** [getError(err)] *)
Definition getError (err : JsError) : StatusReport :=
  match err with
  | ThrowObject true errorCode msg =>
      let statusType :=
        if decide (errorCode = "NOT_FOUND") then NOT_FOUND
        else if decide (errorCode = "EXISTS") then CONFLICT
        else BAD_REQUEST in
      mkStatusReport statusType errorCode msg
  | _ => mkStatusReport SERVER_ERROR "INTERNAL" (toString err)
  end.

(** What a handler sends. *)
Inductive Body : Type :=
| JsonReading (r : Reading)
| JsonUrl (URL : string)
| JsonStatus (r : StatusReport)
| Text (s : string).

Record Response : Type := mkResponse {
  statusCode : nat;
  body : Body
}.

(** The parts of an Express request the handlers read; parameters are
    strings, an absent one is [undefined]. *)
Record Request : Type := mkRequest {
  params : gmap string string;
  query : gmap string string
}.

(** Route prefix of a metric: [/temp], [/dist], [/speed]. *)
Definition route (m : Metric) : string :=
  match m with
  | Temperature => "temp"
  | Distance => "dist"
  | Speed => "speed"
  end.

Definition bad_read_url (m : Metric) : JsError :=
  ThrowObject true "BAD_REQUEST"
    ("Incorrect url, try like > /" +:+ route m +:+ "/1").

Definition bad_write_url (m : Metric) : JsError :=
  ThrowObject true "BAD_REQUEST"
    ("Incorrect url, try like > /" +:+ route m
     +:+ "?sensorId=1&value=26&seqNum=0").

(** [x === undefined || x.length === 0] *)
Definition absent (x : option string) : bool :=
  match x with
  | None => true
  | Some s => (String.length s =? 0)%nat
  end.

(** The [catch] of every JSON route. *)
Definition report (err : JsError) : M Response :=
  let statusReport := getError err in
  ret (mkResponse (status statusReport) (JsonStatus statusReport)).

(** [getTemp], [getDist], [getSpeed] *)
Definition getReading (m : Metric) (req : Request) : M Response :=
  try_catch
    (match params req !! "sensorId" with
     | Some sensorId =>
         if absent (Some sensorId) then throw (bad_read_url m)
         else
           returnObj <- readLast m sensorId ;;
           ret (mkResponse OK (JsonReading returnObj))
     | None => throw (bad_read_url m)
     end)
    report.

Definition getTemp := getReading Temperature.
Definition getDist := getReading Distance.
Definition getSpeed := getReading Speed.

(** Modelled from the spec: [processor.writeFile(metric, sensorId, value)]
    of the file writer, which is not part of these sources: a simple
    append to a side log. *)
Definition writeFile (metric sensorId value : string) : M unit :=
  fun w =>
    (Ret (),
     mkWorld (driver w) (this w) (console w)
       (files w ++ [(metric, sensorId, value)])%list).

(** [setTemp], [setDist], [setSpeed] *)
Definition setReading (m : Metric) (req : Request) : M Response :=
  try_catch
    (match query req !! "sensorId", query req !! "value",
           query req !! "seqNum" with
     | Some sensorId, Some value, Some seqNum =>
         if absent (Some sensorId) || absent (Some value)
            || absent (Some seqNum)
         then throw (bad_write_url m)
         else
           writeFile (route m) sensorId value ;;
           write m sensorId value seqNum ;;
           ret (mkResponse CREATED
                  (JsonUrl ("/" +:+ route m +:+ "?sensorId=" +:+ sensorId
                            +:+ "&value=" +:+ value
                            +:+ "&seqNum=" +:+ seqNum)))
     | _, _, _ => throw (bad_write_url m)
     end)
    report.

Definition setTemp := setReading Temperature.
Definition setDist := setReading Distance.
Definition setSpeed := setReading Speed.

(** [closeDatabase]: calls [pcDatabase.close()]. *)
Definition closeDatabase : M Response :=
  try_catch
    (invoke "close" ;; ret (mkResponse OK (Text "GOOD")))
    (fun err =>
       console_log (LogError err) ;; ret (mkResponse OK (Text "BAD"))).

(** [clearDatabase]: calls [pcDatabase.clearDatabase()]. *)
Definition clearDatabase : M Response :=
  try_catch
    (invoke "clearDatabase" ;; ret (mkResponse OK (Text "GOOD")))
    (fun err =>
       console_log (LogError err) ;; ret (mkResponse OK (Text "BAD"))).

(** What the error middleware sends: the hint for a body that is not
    JSON, or the code SERVER_ERROR with [err.message] ([None] when the
    thrown value has no message). *)
Inductive ErrorBody : Type :=
| InvalidJson (error tips : string)
| ServerError (code : string) (message : option string).

Record ErrorResponse : Type := mkErrorResponse {
  error_status : nat;
  error_body : ErrorBody
}.

(** [err instanceof SyntaxError] *)
Definition isSyntaxError (err : JsError) : bool :=
  match err with
  | ThrowError name _ => if decide (name = "SyntaxError") then true else false
  | _ => false
  end.

(** [doErrors()]: the error-handling middleware, registered last. *)
Definition doErrors (err : JsError) : M ErrorResponse :=
  if isSyntaxError err then
    ret (mkErrorResponse BAD_REQUEST
           (InvalidJson "Invalid JSON" "Check if body has correct JSON syntax"))
  else
    console_log (LogError err) ;;
    ret (mkErrorResponse SERVER_ERROR
           (ServerError "SERVER_ERROR" (error_message err))).

(** [errorWrap(handler)]: what the handler sends, or, when the handler
    rejects, [next(err)], which Express hands to the error middleware. *)
Definition errorWrap (handler : Request -> M Response)
    (next : JsError -> M ErrorResponse) (req : Request)
    : M (Response + ErrorResponse) :=
  try_catch (r <- handler req ;; ret (inl r))
    (fun err => e <- next err ;; ret (inr e)).

End Server.

(** ** String methods of the JavaScript runtime *)

Module JsString.

(** Code units are read as Latin-1 characters. *)

(** White space and line terminators, as [trim] strips them: TAB, LF, VT,
    FF, CR, SP and NBSP. *)
Definition is_white_space (c : ascii) : bool :=
  let n := nat_of_ascii c in
  ((n =? 9) || (n =? 10) || (n =? 11) || (n =? 12) || (n =? 13)
   || (n =? 32) || (n =? 160))%nat.

Fixpoint trim_start (l : list ascii) : list ascii :=
  match l with
  | c :: l' => if is_white_space c then trim_start l' else l
  | [] => []
  end.

Definition trim_end (l : list ascii) : list ascii :=
  rev (trim_start (rev l)).

(** [s.trim()] *)
Definition trim (s : string) : string :=
  string_of_list_ascii (trim_end (trim_start (list_ascii_of_string s))).

(** Lower case of one character: A-Z, and the accented capitals of
    Latin-1 except the multiplication sign. *)
Definition lower_char (c : ascii) : ascii :=
  let n := nat_of_ascii c in
  if (((65 <=? n) && (n <=? 90)) || ((192 <=? n) && (n <=? 214))
      || ((216 <=? n) && (n <=? 222)))%nat
  then ascii_of_nat (n + 32)
  else c.

(** [s.toLowerCase()] *)
Fixpoint toLowerCase (s : string) : string :=
  match s with
  | EmptyString => EmptyString
  | String c s' => String (lower_char c) (toLowerCase s')
  end.

(** [s.split(sep)] for a separator of one character: the pieces between
    the separators; [current] is the piece being read. *)
Fixpoint split_from (sep : ascii) (current : string) (s : string)
    : list string :=
  match s with
  | EmptyString => [current]
  | String c s' =>
      if decide (c = sep) then current :: split_from sep EmptyString s'
      else split_from sep (current +:+ String c EmptyString) s'
  end.

Definition split (sep : ascii) (s : string) : list string :=
  split_from sep EmptyString s.

(** The replacement text of [replace] for a string pattern: in the
    template, [$$] is a dollar sign, [$&] the matched text, [$`] the text
    before the match and [$'] the text after it; there are no captures, so
    every other character stands for itself. *)
Fixpoint getSubstitution (matched before after template : string) : string :=
  match template with
  | EmptyString => EmptyString
  | String c t =>
      if decide (c = "$"%char) then
        match t with
        | String d t' =>
            if decide (d = "$"%char)
            then String "$" (getSubstitution matched before after t')
            else if decide (d = "&"%char)
            then matched +:+ getSubstitution matched before after t'
            else if decide (d = "`"%char)
            then before +:+ getSubstitution matched before after t'
            else if decide (d = "'"%char)
            then after +:+ getSubstitution matched before after t'
            else String c (getSubstitution matched before after t)
        | EmptyString => String c EmptyString
        end
      else String c (getSubstitution matched before after t)
  end.

(** [s.replace(search, template)] for a string [search]: the first
    occurrence only; without one, [s] itself. *)
Definition replace (s search template : string) : string :=
  match index 0 search s with
  | None => s
  | Some pos =>
      let before := String.substring 0 pos s in
      let after :=
        String.substring (pos + String.length search)
          (String.length s - (pos + String.length search)) s in
      before +:+ getSubstitution search before after template +:+ after
  end.

End JsString.

(** ** Helpers of the page server (second part of pc_server.js) *)

Module WebPage.

Import JsString.

Definition double_quote : string := String (ascii_of_nat 34) EmptyString.

(** [getHTMLString(term)] *)
Definition getHTMLString (term : string) : string :=
  "<span class=" +:+ double_quote +:+ "search-term" +:+ double_quote
  +:+ "> " +:+ term +:+ " </span>".

(** The body of the inner loop of [generateCustomHTML]. *)
Definition highlight (line term : string) : string :=
  replace (toLowerCase line) (toLowerCase term)
    (getHTMLString (toLowerCase term)).

(** [generateCustomHTML(lines, terms)]: for every line, the terms are
    applied one after the other to the line as the previous term left
    it. *)
Definition generateCustomHTML (lines : list string) (terms : string)
    : list string :=
  let termArray := split " "%char terms in
  List.map (fun line => fold_left highlight termArray line) lines.

(** [getNonEmptyValues(values)], for an object whose values are strings:
    a value is kept, trimmed, when it is not empty and its trimmed text is
    not empty. *)
Definition getNonEmptyValues (values : gmap string string)
    : gmap string string :=
  omap
    (fun v =>
       if negb (String.length v =? 0)%nat
          && (0 <? String.length (trim v))%nat
       then Some (trim v) else None)
    values.

End WebPage.

(** ** Properties *)

Import JsRegExp Database Server.

(** *** Shared definitions for the statements *)

(** A database instance as the constructor leaves it for
    [mongodb://localhost:27017/gnc]. *)
Definition gnc_instance : GNCDatabase :=
  mkGNCDatabase (Some "gnc") (Some "mongodb://localhost:27017")
    false false None None None.

(** A reachable server with an empty database, before [init]. *)
Definition empty_driver : Mongo.Driver := Mongo.mkDriver true false ∅ 0.

Definition fresh_world : World := mkWorld empty_driver gnc_instance [] [].

(** The process after a successful [init] on the empty database. *)
Definition started_world : World := snd (init fresh_world).

(** The world with one more line on the console. *)
Definition logged (l : Logged) (w : World) : World :=
  mkWorld (driver w) (this w) (console w ++ [l]) (files w).

(** The world with another driver state. *)
Definition with_driver (d : Mongo.Driver) (w : World) : World :=
  mkWorld d (this w) (console w) (files w).

(** The line [close()] prints. *)
Definition closed_line : Logged := LogString "MongoDB connection closed".

(** The [TypeError] of a call to a property that is not a function. *)
Definition not_a_function (name : string) : JsError :=
  ThrowError "TypeError"
    ("app.locals.pcDatabase." +:+ name +:+ " is not a function").

(** One call [write m sensorId value seqNum], as data. *)
Record Append : Type := mkAppend {
  append_metric : Metric;
  append_sensor : string;
  append_value : string;
  append_seq : string
}.

(** A sequence of appends, each awaited before the next starts. *)
Fixpoint appends (l : list Append) : M unit :=
  match l with
  | [] => ret ()
  | a :: l' =>
      bind (write (append_metric a) (append_sensor a) (append_value a)
              (append_seq a))
        (fun _ => appends l')
  end.

(** The append goes to sensor [sid] of metric [m]. *)
Definition targets (m : Metric) (sid : string) (a : Append) : bool :=
  bool_decide (append_metric a = m) && bool_decide (append_sensor a = sid).

(** Every stored ObjectId is older than the next one the driver hands
    out. *)
Definition fresh_ids (d : Mongo.Driver) : bool :=
  forallb
    (fun entry =>
       forallb (fun doc => (Mongo._id doc <? Mongo.next_oid d)%nat) (snd entry))
    (map_to_list (Mongo.collections d)).

(** The three collection fields hold their handles, as after [init]. *)
Definition handles_open (g : GNCDatabase) : bool :=
  bool_decide (tempCollection g = Some "Temperature")
  && bool_decide (distCollection g = Some "Distance")
  && bool_decide (speedCollection g = Some "Speed").

(** A process that serves requests: connected, backend reachable,
    collections opened, ObjectIds fresh. *)
Definition ready (w : World) : bool :=
  Mongo.io_ok (driver w) && handles_open (this w) && fresh_ids (driver w).

(** The records of sensor [sid] in the collection of metric [m]. *)
Definition readings_of (m : Metric) (sid : string) (d : Mongo.Driver)
    : list Mongo.Document :=
  List.filter (Mongo.matches sid)
    (default [] (Mongo.collections d !! collection_name m)).

(** What a read of sensor [sid] finds in the collection of metric [m]. *)
Definition latest_reading (m : Metric) (sid : string) (d : Mongo.Driver)
    : option Reading :=
  (fun doc => mkReading (Mongo.sensorValue doc) (Mongo.seqNum doc))
    <$> Mongo.greatest_id (readings_of m sid d).

(** The reading of the last append that targets the sensor, if any. *)
Definition last_appended (m : Metric) (sid : string) (l : list Append)
    : option Reading :=
  (fun a => mkReading (append_value a) (append_seq a))
    <$> last (List.filter (targets m sid) l).

(** The fields of a stored record, without its ObjectId. *)
Definition fields (doc : Mongo.Document) : string * string * string :=
  (Mongo.sensorID doc, Mongo.sensorValue doc, Mongo.seqNum doc).

(** The four default readings of a metric, in the order [init] writes
    them. *)
Definition seed_fields : list (string * string * string) :=
  [("1", "-1", "0"); ("2", "-1", "0"); ("3", "-1", "0"); ("4", "-1", "0")].

(** The driver after [connect]. *)
Definition connect_driver (d : Mongo.Driver) : Mongo.Driver :=
  Mongo.mkDriver (Mongo.reachable d) true (Mongo.collections d)
    (Mongo.next_oid d).

(** The driver after the three [createCollection] calls of [init]. *)
Definition opened_driver (d : Mongo.Driver) : Mongo.Driver :=
  Mongo.ensure_collection "Speed"
    (Mongo.ensure_collection "Distance"
       (Mongo.ensure_collection "Temperature" (connect_driver d))).

(** The four default records appended to collection [h]. *)
Definition seeded (h : string) (d : Mongo.Driver) : Mongo.Driver :=
  Mongo.append_document h "4" "-1" "0"
    (Mongo.append_document h "3" "-1" "0"
       (Mongo.append_document h "2" "-1" "0"
          (Mongo.append_document h "1" "-1" "0" d))).

(** The driver after a successful [init]. *)
Definition init_driver (d : Mongo.Driver) : Mongo.Driver :=
  seeded "Speed" (seeded "Distance" (seeded "Temperature" (opened_driver d))).

(** The instance after a successful [init]. *)
Definition init_instance (g : GNCDatabase) : GNCDatabase :=
  mkGNCDatabase (databaseName g) (serverUrl g) true true
    (Some "Temperature") (Some "Distance") (Some "Speed").

(** The world after a successful [init]. *)
Definition init_world (w : World) : World :=
  mkWorld (init_driver (driver w)) (init_instance (this w))
    (console w ++ [LogString "Database Connected"]) (files w).

(** The world in which [init] starts writing the defaults. *)
Definition opened_world (w : World) : World :=
  mkWorld (opened_driver (driver w)) (init_instance (this w))
    (console w ++ [LogString "Database Connected"]) (files w).

(** The twelve writes of [init], in order. *)
Definition seed_appends : list Append :=
  [mkAppend Temperature "1" "-1" "0"; mkAppend Temperature "2" "-1" "0";
   mkAppend Temperature "3" "-1" "0"; mkAppend Temperature "4" "-1" "0";
   mkAppend Distance "1" "-1" "0"; mkAppend Distance "2" "-1" "0";
   mkAppend Distance "3" "-1" "0"; mkAppend Distance "4" "-1" "0";
   mkAppend Speed "1" "-1" "0"; mkAppend Speed "2" "-1" "0";
   mkAppend Speed "3" "-1" "0"; mkAppend Speed "4" "-1" "0"].

(** The sensors that get a default reading. *)
Definition default_sensors : list string := ["1"; "2"; "3"; "4"].

(** A request for the latest reading of sensor [sid]. *)
Definition read_request (sid : string) : Request :=
  mkRequest {["sensorId" := sid]} ∅.

(** The started process while the backend cannot be reached. *)
Definition faulty_world : World :=
  with_driver
    (Mongo.mkDriver false true (Mongo.collections (driver started_world))
       (Mongo.next_oid (driver started_world)))
    started_world.

(** The connection string of the examples. *)
Definition gnc_url : string := "mongodb://localhost:27017/gnc".

(** A write request with the three query parameters. *)
Definition write_request (sid val seq : string) : Request :=
  mkRequest ∅
    (<["sensorId" := sid]> (<["value" := val]> {["seqNum" := seq]})).

(** The [URL] a write route echoes. *)
Definition write_url (m : Metric) (sid val seq : string) : string :=
  "/" +:+ route m +:+ "?sensorId=" +:+ sid +:+ "&value=" +:+ val
  +:+ "&seqNum=" +:+ seq.

(** The line [init] prints when it cannot connect. *)
Definition connect_failed_line : Logged :=
  LogString
    (interpolate (error_message Mongo.network_error) +:+ nl +:+
     "Database FAILED to connect, check if server is online or port is correct").

(** Every record already stored in [d] is still stored in [d'], in its
    collection, at its place, unchanged. *)
Definition keeps_records (d d' : Mongo.Driver) : Prop :=
  forall name docs,
    Mongo.collections d !! name = Some docs ->
    exists more, Mongo.collections d' !! name = Some (docs ++ more).

(** The world after the side-log write of a write route. *)
Definition side_logged (m : Metric) (sid val : string) (w : World) : World :=
  mkWorld (driver w) (this w) (console w)
    (files w ++ [(route m, sid, val)]).

(** No line terminator occurs in the string. *)
Definition single_line (s : string) : bool :=
  forallb (fun c => negb (is_line_terminator c)) (list_ascii_of_string s).

(** The string consists of word characters. *)
Definition word_string (s : string) : bool :=
  forallb is_word (list_ascii_of_string s).

(** No slash occurs in the string. *)
Definition slash_free (s : string) : bool :=
  forallb (fun c => negb (atom_matches (Lit slash) c)) (list_ascii_of_string s).

(** The module state with the two patterns at given offsets. *)
Definition patterns_at (i j : nat) : Patterns :=
  mkPatterns (mkRegExp database_name_pattern i) (mkRegExp server_url_pattern j).

(** The last character of the string is a word character. *)
Definition ends_in_word (s : string) : bool :=
  match last (list_ascii_of_string s) with
  | Some c => is_word c
  | None => false
  end.

(** The lower-cased term occurs in the lower-cased line. *)
Definition occurs (term line : string) : bool :=
  match index 0 (JsString.toLowerCase term) (JsString.toLowerCase line) with
  | Some _ => true
  | None => false
  end.

(** None of the terms occurs in any of the lines. *)
Definition no_term_occurs (lines : list string) (terms : string) : bool :=
  forallb
    (fun line =>
       forallb (fun term => negb (occurs term line))
         (JsString.split " "%char terms))
    lines.

(** *** The error mapping *)

(** C7. [getError] maps a domain error with code NOT_FOUND to 404, with
    code EXISTS to 409, any other domain error (BAD_REQUEST among them) to
    400, and every error that is not a domain error to 500 with code
    INTERNAL. *)
Theorem getError_status_mapping :
  (forall msg,
     getError (ThrowObject true "NOT_FOUND" msg)
     = mkStatusReport 404 "NOT_FOUND" msg) /\
  (forall msg,
     getError (ThrowObject true "EXISTS" msg)
     = mkStatusReport 409 "EXISTS" msg) /\
  (forall c msg, c <> "NOT_FOUND" -> c <> "EXISTS" ->
     getError (ThrowObject true c msg) = mkStatusReport 400 c msg) /\
  (forall err, isDomain err = false ->
     status (getError err) = 500 /\ code (getError err) = "INTERNAL").
Proof.
  split; [reflexivity|]. split; [reflexivity|]. split.
  - intros c msg Hnf Hex. unfold getError.
    destruct (decide (c = "NOT_FOUND")) as [E|_]; [contradiction|].
    destruct (decide (c = "EXISTS")) as [E|_]; [contradiction|].
    reflexivity.
  - intros err Hdom.
    destruct err as [s|[] c m|n m]; simpl in Hdom; try discriminate;
      split; reflexivity.
Qed.

Lemma getError_status_mapping_witness :
  getError (ThrowObject true "BAD_REQUEST" "Incorrect url, try like > /temp/1")
  = mkStatusReport 400 "BAD_REQUEST" "Incorrect url, try like > /temp/1"
  /\ status (getError (ThrowString "One or more errors")) = 500
  /\ code (getError (ThrowString "One or more errors")) = "INTERNAL".
Proof.
  destruct getError_status_mapping as (_ & _ & Hother & Hinternal).
  split.
  - apply Hother; discriminate.
  - apply Hinternal. reflexivity.
Defined.

(** *** One call of a database method *)

Lemma write_ok (m : Metric) (sid val seq h : string) (w : World) :
  Mongo.io_ok (driver w) = true ->
  collection_field m (this w) = Some h ->
  write m sid val seq w
  = (Ret (), with_driver (Mongo.append_document h sid val seq (driver w)) w).
Proof.
  intros Hio Hh.
  unfold write, try_catch, bind, get_this, call, Mongo.insertOne; simpl.
  rewrite Hh; simpl. rewrite Hio. reflexivity.
Qed.

Lemma readLast_ok (m : Metric) (sid h : string) (w : World) :
  Mongo.io_ok (driver w) = true ->
  collection_field m (this w) = Some h ->
  readLast m sid w
  = match Mongo.greatest_id
            (List.filter (Mongo.matches sid)
               (default [] (Mongo.collections (driver w) !! h))) with
    | Some doc =>
        (Ret (mkReading (Mongo.sensorValue doc) (Mongo.seqNum doc)), w)
    | None =>
        (Throw (read_error (this w) m), logged (LogError (no_document m sid)) w)
    end.
Proof.
  intros Hio Hh.
  unfold readLast, try_catch, bind, get_this, call, Mongo.findOne; simpl.
  rewrite Hh; simpl. rewrite Hio; simpl.
  destruct w as [d g c f]; simpl.
  destruct (Mongo.greatest_id _); reflexivity.
Qed.

Lemma readLast_fault (m : Metric) (sid h : string) (w : World) :
  Mongo.io_ok (driver w) = false ->
  collection_field m (this w) = Some h ->
  readLast m sid w
  = (Throw (read_error (this w) m), logged (LogError Mongo.topology_error) w).
Proof.
  intros Hio Hh.
  unfold readLast, try_catch, bind, get_this, call, Mongo.findOne; simpl.
  rewrite Hh; simpl. rewrite Hio; simpl.
  destruct w as [d g c f]; reflexivity.
Qed.

(** *** Validation on the write routes *)

(** C5. On every write route, a request whose [sensorId], [value] or
    [seqNum] query parameter is missing or empty is answered 400 with code
    BAD_REQUEST, and the process state is left as it was: no record is
    stored and nothing is written to the side log. *)
Theorem setReading_rejects_absent_parameter
    (m : Metric) (req : Request) (w : World) :
  absent (query req !! "sensorId") || absent (query req !! "value")
    || absent (query req !! "seqNum") = true ->
  exists msg,
    setReading m req w
    = (Ret (mkResponse 400
              (JsonStatus (mkStatusReport 400 "BAD_REQUEST" msg))), w).
Proof.
  intros Habs.
  exists ("Incorrect url, try like > /" +:+ route m
          +:+ "?sensorId=1&value=26&seqNum=0").
  unfold setReading, try_catch.
  destruct (query req !! "sensorId") as [sensorId|];
    destruct (query req !! "value") as [value|];
    destruct (query req !! "seqNum") as [seqNum|];
    try reflexivity.
  rewrite Habs. reflexivity.
Qed.

Lemma setReading_rejects_absent_parameter_witness :
  exists msg,
    setTemp
      (mkRequest ∅ (<["sensorId" := "1"]> (<["value" := ""]> {["seqNum" := "5"]})))
      started_world
    = (Ret (mkResponse 400
              (JsonStatus (mkStatusReport 400 "BAD_REQUEST" msg))),
       started_world).
Proof.
  apply (setReading_rejects_absent_parameter Temperature).
  vm_compute. reflexivity.
Defined.

(** *** Closing the connection *)

(** C9. [close()] without a connection changes nothing but the console,
    and a [close()] that follows a successful [close()] resolves as well:
    it adds its line to the console and leaves the driver, the instance
    and the side log as the first one left them. *)
Theorem close_idempotent (w : World) :
  (mongoDBConnection (this w) = false ->
     close w = (Ret (), logged closed_line w)) /\
  (forall w1, close w = (Ret (), w1) ->
     close w1 = (Ret (), logged closed_line w1)).
Proof.
  split.
  - intros Hnull. unfold close, bind, get_this; simpl. rewrite Hnull.
    reflexivity.
  - intros w1 Hfirst.
    unfold close, bind, get_this, call, console_log in *; simpl in *.
    destruct (mongoDBConnection (this w)) eqn:Hconn; simpl in *.
    + inversion Hfirst; subst w1; clear Hfirst; simpl.
      rewrite Hconn; simpl. reflexivity.
    + inversion Hfirst; subst w1; clear Hfirst; simpl.
      rewrite Hconn; simpl. reflexivity.
Qed.

Lemma close_idempotent_witness :
  close fresh_world = (Ret (), logged closed_line fresh_world) /\
  close (snd (close started_world))
  = (Ret (), logged closed_line (snd (close started_world))).
Proof.
  split.
  - apply (proj1 (close_idempotent fresh_world)). reflexivity.
  - apply (proj2 (close_idempotent started_world)
             (snd (close started_world))).
    vm_compute. reflexivity.
Defined.

(** *** The clear route *)

(** C4 (as the code behaves). The handler of [/clearDB] calls
    [clearDatabase] on the database object, a method the class does not
    have: in every state it answers BAD, logs the [TypeError] and leaves
    every collection in place. *)
Theorem clearDatabase_route_always_bad (w : World) :
  clearDatabase w
  = (Ret (mkResponse 200 (Text "BAD")),
     logged (LogError (not_a_function "clearDatabase")) w).
Proof.
  destruct w as [d g c f]. reflexivity.
Qed.

(** *** Appends and the latest reading *)

Lemma collection_name_inj (m m' : Metric) :
  collection_name m = collection_name m' -> m = m'.
Proof. destruct m, m'; simpl; intros H; try reflexivity; discriminate. Qed.

Lemma fresh_ids_spec (d : Mongo.Driver) :
  fresh_ids d = true <->
  (forall name docs, Mongo.collections d !! name = Some docs ->
     Forall (fun doc => Mongo._id doc < Mongo.next_oid d) docs).
Proof.
  unfold fresh_ids. rewrite forallb_forall. split.
  - intros H name docs Hlook.
    apply elem_of_map_to_list, list_elem_of_In, H in Hlook. simpl in Hlook.
    apply Forall_forall. intros doc Hin.
    rewrite forallb_forall in Hlook.
    apply list_elem_of_In, Hlook, Nat.ltb_lt in Hin. exact Hin.
  - intros H [name docs] Hin. simpl.
    apply list_elem_of_In, elem_of_map_to_list, H in Hin.
    apply forallb_forall. intros doc Hdoc. apply Nat.ltb_lt.
    rewrite Forall_forall in Hin. apply Hin, list_elem_of_In, Hdoc.
Qed.

Lemma handles_open_spec (g : GNCDatabase) :
  handles_open g = true ->
  forall m, collection_field m g = Some (collection_name m).
Proof.
  unfold handles_open. rewrite !andb_true_iff, !bool_decide_eq_true.
  intros [[Ht Hd] Hs] []; assumption.
Qed.

Lemma ready_spec (w : World) :
  ready w = true <->
  Mongo.io_ok (driver w) = true /\ handles_open (this w) = true
  /\ fresh_ids (driver w) = true.
Proof. unfold ready. rewrite !andb_true_iff. tauto. Qed.

(** Appending keeps the ObjectIds fresh. *)
Lemma append_document_fresh (h sid val seq : string) (d : Mongo.Driver) :
  fresh_ids d = true ->
  fresh_ids (Mongo.append_document h sid val seq d) = true.
Proof.
  rewrite !fresh_ids_spec. intros Hfresh name docs. simpl.
  destruct (decide (h = name)) as [->|Hne].
  - rewrite lookup_insert_eq. intros [= <-].
    apply Forall_app. split.
    + destruct (Mongo.collections d !! name) as [old|] eqn:Hold; simpl.
      * eapply Forall_impl; [exact (Hfresh _ _ Hold)|]. simpl. lia.
      * constructor.
    + repeat constructor.
  - rewrite lookup_insert_ne by exact Hne. intros Hlook.
    eapply Forall_impl; [exact (Hfresh _ _ Hlook)|]. simpl. lia.
Qed.

(** A write in a ready process resolves and leaves it ready. *)
Lemma write_ready (m : Metric) (sid val seq : string) (w : World) :
  ready w = true ->
  write m sid val seq w
  = (Ret (),
     with_driver
       (Mongo.append_document (collection_name m) sid val seq (driver w)) w)
  /\ ready
       (with_driver
          (Mongo.append_document (collection_name m) sid val seq (driver w)) w)
     = true.
Proof.
  intros Hready. apply ready_spec in Hready as (Hio & Hh & Hfresh).
  split.
  - apply write_ok; [exact Hio|]. apply handles_open_spec, Hh.
  - apply ready_spec. simpl. repeat split.
    + exact Hio.
    + exact Hh.
    + apply append_document_fresh, Hfresh.
Qed.

(** A record newer than all others is the one the sorted query returns. *)
Lemma greatest_id_snoc (docs : list Mongo.Document) (doc : Mongo.Document) :
  Forall (fun old => Mongo._id old < Mongo._id doc) docs ->
  Mongo.greatest_id (docs ++ [doc]) = Some doc.
Proof.
  induction docs as [|old docs IH]; intros Hall; simpl.
  - reflexivity.
  - inversion Hall as [|? ? Hold Hrest]; subst.
    rewrite (IH Hrest).
    apply Nat.ltb_lt in Hold. rewrite Hold. reflexivity.
Qed.

Lemma Forall_filter_keep {A : Type} (P : A -> Prop) (f : A -> bool)
    (l : list A) :
  Forall P l -> Forall P (List.filter f l).
Proof.
  induction 1 as [|x l Hx _ IH]; simpl; [constructor|].
  destruct (f x); [constructor; assumption | assumption].
Qed.

(** After an append to sensor [sid] of metric [m], the latest reading of
    that sensor is the appended one. *)
Lemma latest_reading_append_same
    (m : Metric) (sid val seq : string) (d : Mongo.Driver) :
  fresh_ids d = true ->
  latest_reading m sid
    (Mongo.append_document (collection_name m) sid val seq d)
  = Some (mkReading val seq).
Proof.
  intros Hfresh. unfold latest_reading, readings_of; simpl.
  rewrite lookup_insert_eq; simpl.
  rewrite List.filter_app; simpl.
  unfold Mongo.matches at 2; simpl.
  destruct (decide (sid = sid)) as [_|Hne]; [|contradiction].
  rewrite greatest_id_snoc; [reflexivity|].
  apply Forall_filter_keep. simpl.
  destruct (Mongo.collections d !! collection_name m) as [old|] eqn:Hold;
    simpl; [|constructor].
  apply fresh_ids_spec with (name := collection_name m) (docs := old) in Hfresh;
    assumption.
Qed.

(** An append elsewhere does not change it. *)
Lemma latest_reading_append_other
    (m m' : Metric) (sid sid' val seq : string) (d : Mongo.Driver) :
  m' <> m \/ sid' <> sid ->
  latest_reading m sid
    (Mongo.append_document (collection_name m') sid' val seq d)
  = latest_reading m sid d.
Proof.
  intros Hother. unfold latest_reading, readings_of; simpl.
  destruct (decide (m' = m)) as [->|Hm].
  - destruct Hother as [Hm|Hs]; [contradiction|].
    rewrite lookup_insert_eq; simpl.
    rewrite List.filter_app; simpl.
    unfold Mongo.matches at 2; simpl.
    destruct (decide (sid' = sid)) as [E|_]; [contradiction|].
    rewrite app_nil_r. reflexivity.
  - rewrite lookup_insert_ne; [reflexivity|].
    intros E. apply collection_name_inj in E. contradiction.
Qed.

Lemma targets_true (m : Metric) (sid : string) (a : Append) :
  targets m sid a = true <-> append_metric a = m /\ append_sensor a = sid.
Proof.
  unfold targets. rewrite andb_true_iff, !bool_decide_eq_true. tauto.
Qed.

Lemma targets_false (m : Metric) (sid : string) (a : Append) :
  targets m sid a = false -> append_metric a <> m \/ append_sensor a <> sid.
Proof.
  unfold targets. rewrite andb_false_iff, !bool_decide_eq_false. tauto.
Qed.

(** A sequence of appends in a ready process resolves; afterwards the
    latest reading of a sensor is that of the last append to it, or what it
    was before when no append went to it. *)
Lemma appends_latest (m : Metric) (sid : string) (l : list Append) :
  forall w, ready w = true ->
  exists w',
    appends l w = (Ret (), w') /\ ready w' = true /\
    latest_reading m sid (driver w')
    = match last_appended m sid l with
      | Some r => Some r
      | None => latest_reading m sid (driver w)
      end.
Proof.
  induction l as [|a l IH]; intros w Hready.
  - exists w. repeat split; assumption || reflexivity.
  - destruct (write_ready (append_metric a) (append_sensor a)
                (append_value a) (append_seq a) w Hready) as [Hw Hready1].
    destruct (IH _ Hready1) as (w' & Hrun & Hready' & Hlatest).
    exists w'. split; [|split; [exact Hready'|]].
    + simpl. unfold bind. rewrite Hw. exact Hrun.
    + rewrite Hlatest. unfold last_appended. simpl List.filter.
      destruct (targets m sid a) eqn:Ha.
      * rewrite last_cons.
        destruct (last (List.filter _ l)) as [b|]; simpl; [reflexivity|].
        apply targets_true in Ha as [<- <-].
        apply latest_reading_append_same.
        apply ready_spec in Hready. tauto.
      * destruct (last (List.filter _ l)) as [b|]; simpl; [reflexivity|].
        apply latest_reading_append_other, targets_false, Ha.
Qed.

(** A read in a process with open handles returns the latest reading, or
    logs the missing document and rejects with the read error. *)
Lemma readLast_latest (m : Metric) (sid : string) (w : World) :
  Mongo.io_ok (driver w) = true ->
  handles_open (this w) = true ->
  readLast m sid w
  = match latest_reading m sid (driver w) with
    | Some r => (Ret r, w)
    | None =>
        (Throw (read_error (this w) m), logged (LogError (no_document m sid)) w)
    end.
Proof.
  intros Hio Hh.
  rewrite (readLast_ok m sid (collection_name m)); try assumption.
  - unfold latest_reading, readings_of.
    destruct (Mongo.greatest_id _); reflexivity.
  - apply handles_open_spec, Hh.
Qed.




(** *** Start-up *)

Lemma lookup_append_same (h sid val seq : string) (d : Mongo.Driver) :
  Mongo.collections (Mongo.append_document h sid val seq d) !! h
  = Some (default [] (Mongo.collections d !! h)
          ++ [Mongo.mkDocument (Mongo.next_oid d) sid val seq]).
Proof. simpl. apply lookup_insert_eq. Qed.

Lemma lookup_append_other (h h' sid val seq : string) (d : Mongo.Driver) :
  h <> h' ->
  Mongo.collections (Mongo.append_document h sid val seq d) !! h'
  = Mongo.collections d !! h'.
Proof. intros Hne. simpl. apply lookup_insert_ne, Hne. Qed.

Lemma lookup_ensure_same (h : string) (d : Mongo.Driver) :
  Mongo.collections (Mongo.ensure_collection h d) !! h
  = Some (default [] (Mongo.collections d !! h)).
Proof.
  unfold Mongo.ensure_collection; simpl.
  destruct (Mongo.collections d !! h) as [docs|] eqn:Hd; simpl.
  - exact Hd.
  - apply lookup_insert_eq.
Qed.

Lemma lookup_ensure_other (h h' : string) (d : Mongo.Driver) :
  h <> h' ->
  Mongo.collections (Mongo.ensure_collection h d) !! h'
  = Mongo.collections d !! h'.
Proof.
  intros Hne. unfold Mongo.ensure_collection; simpl.
  destruct (Mongo.collections d !! h); simpl; [reflexivity|].
  apply lookup_insert_ne, Hne.
Qed.

Lemma bind_Ret {A B : Type} (m : M A) (k : A -> M B) (w w1 : World) (a : A) :
  m w = (Ret a, w1) -> bind m k w = k a w1.
Proof. intros H. unfold bind. rewrite H. reflexivity. Qed.

Lemma createCollection_ok (name : string) (w : World) :
  Mongo.io_ok (driver w) = true ->
  databaseConnection (this w) = true ->
  createCollection name w
  = (Ret name, with_driver (Mongo.ensure_collection name (driver w)) w).
Proof.
  intros Hio Hdb.
  unfold createCollection, bind, get_this, call, Mongo.createCollection.
  cbn [fst snd]. rewrite Hdb, Hio. reflexivity.
Qed.

Ltac world_simpl :=
  cbn [driver this console files with_driver logged
       collection_field set_collection_field set_databaseConnection
       set_mongoDBConnection mongoDBConnection databaseConnection
       tempCollection distCollection speedCollection databaseName serverUrl].

Ltac step_with lem :=
  first [ erewrite bind_Ret; [| apply lem; reflexivity ]
        | erewrite lem; [| reflexivity | reflexivity ] ];
  world_simpl.

(** [init] on a reachable backend, step by step. *)
Lemma init_run (w : World) :
  Mongo.reachable (driver w) = true ->
  init w = (Ret (), init_world w).
Proof.
  destruct w as [[r co cols n] g c f]. cbn [driver Mongo.reachable].
  intros ->.
  unfold init, writeTemp, writeDist, writeSpeed.
  do 6 (erewrite bind_Ret; [|reflexivity]; world_simpl).
  do 3 (erewrite bind_Ret;
        [| erewrite bind_Ret; [|apply createCollection_ok; reflexivity];
           reflexivity]; world_simpl).
  do 12 step_with write_ok.
  reflexivity.
Qed.

Ltac lookup_collections :=
  repeat first
    [ rewrite lookup_append_same
    | rewrite lookup_append_other by discriminate
    | rewrite lookup_ensure_same
    | rewrite lookup_ensure_other by discriminate ];
  cbn [default from_option id connect_driver Mongo.collections].

(** Each metric's collection after [init]: what it held, then the four
    default records. *)
Lemma init_driver_lookup (m : Metric) (d : Mongo.Driver) :
  exists seeds,
    Mongo.collections (init_driver d) !! collection_name m
    = Some (default [] (Mongo.collections d !! collection_name m) ++ seeds)
    /\ map fields seeds = seed_fields.
Proof.
  unfold init_driver, seeded, opened_driver.
  destruct m; cbn [collection_name]; lookup_collections;
    rewrite <- !app_assoc; cbn [app]; eexists; (split; [reflexivity|]);
    reflexivity.
Qed.

Lemma init_driver_frame (name : string) (d : Mongo.Driver) :
  (forall m, name <> collection_name m) ->
  Mongo.collections (init_driver d) !! name = Mongo.collections d !! name.
Proof.
  intros Hother.
  pose proof (Hother Temperature) as Ht.
  pose proof (Hother Distance) as Hd.
  pose proof (Hother Speed) as Hs. cbn [collection_name] in *.
  unfold init_driver, seeded, opened_driver.
  rewrite !lookup_append_other by congruence.
  rewrite !lookup_ensure_other by congruence.
  reflexivity.
Qed.

(** C6. On a reachable backend [init] resolves with the connection
    established; each of the fields holds the handle of its collection,
    Temperature, Distance and Speed; each of these collections holds what
    it held before followed by exactly four new records, one per sensor
    1, 2, 3, 4 with value -1 and sequence number 0 (as strings); no other
    collection is touched. *)
Theorem init_creates_and_seeds (w : World) :
  Mongo.reachable (driver w) = true ->
  exists w',
    init w = (Ret (), w') /\
    Mongo.connected (driver w') = true /\
    (forall m,
       collection_field m (this w') = Some (collection_name m) /\
       exists seeds,
         Mongo.collections (driver w') !! collection_name m
         = Some (default [] (Mongo.collections (driver w) !! collection_name m)
                 ++ seeds)
         /\ map fields seeds = seed_fields) /\
    (forall name, (forall m, name <> collection_name m) ->
       Mongo.collections (driver w') !! name
       = Mongo.collections (driver w) !! name).
Proof.
  intros Hreach. exists (init_world w).
  split; [apply init_run, Hreach|].
  split; [reflexivity|]. split.
  - intros m. split.
    + destruct m; reflexivity.
    + apply init_driver_lookup.
  - intros name Hother. apply init_driver_frame, Hother.
Qed.

Lemma init_creates_and_seeds_witness :
  exists w',
    init fresh_world = (Ret (), w') /\
    Mongo.connected (driver w') = true /\
    (forall m,
       collection_field m (this w') = Some (collection_name m) /\
       exists seeds,
         Mongo.collections (driver w') !! collection_name m
         = Some (default []
                   (Mongo.collections (driver fresh_world) !! collection_name m)
                 ++ seeds)
         /\ map fields seeds = seed_fields) /\
    (forall name, (forall m, name <> collection_name m) ->
       Mongo.collections (driver w') !! name
       = Mongo.collections (driver fresh_world) !! name).
Proof.
  apply (init_creates_and_seeds fresh_world). reflexivity.
Defined.

(** *** Dropping the collections *)

Lemma entries_names {A : Type} (l : list A) : snd <$> entries l = l.
Proof.
  unfold entries. rewrite fmap_imap.
  rewrite (imap_ext _ (const id)) by reflexivity.
  rewrite imap_const. apply list_fmap_id.
Qed.

(** The loop of [clear] drops the collections it is given, as long as each
    exists and none is listed twice. *)
Lemma drop_entries_run (iter : list (nat * string)) :
  forall w,
    Mongo.io_ok (driver w) = true ->
    NoDup (snd <$> iter) ->
    (forall name, name ∈ snd <$> iter ->
       is_Some (Mongo.collections (driver w) !! name)) ->
    exists d',
      drop_entries iter w = (Ret (), with_driver d' w) /\
      Mongo.io_ok d' = true /\
      Mongo.next_oid d' = Mongo.next_oid (driver w) /\
      forall k,
        Mongo.collections d' !! k
        = if decide (k ∈ snd <$> iter) then None
          else Mongo.collections (driver w) !! k.
Proof.
  induction iter as [|[i name] iter IH]; intros w Hio Hnodup Hpresent.
  - exists (driver w). destruct w as [d g c f].
    split; [reflexivity|]. split; [exact Hio|]. split; [reflexivity|].
    intros k. cbn [fmap list_fmap].
    rewrite decide_False; [reflexivity|]. apply not_elem_of_nil.
  - cbn [fmap list_fmap snd] in Hnodup, Hpresent.
    apply NoDup_cons in Hnodup as [Hfresh Hnodup].
    destruct (Hpresent name) as [docs Hdocs]; [left|].
    set (d1 := Mongo.mkDriver (Mongo.reachable (driver w))
                 (Mongo.connected (driver w))
                 (delete name (Mongo.collections (driver w)))
                 (Mongo.next_oid (driver w))).
    destruct (IH (with_driver d1 w)) as (d' & Hrun & Hio' & Hoid & Hlook).
    + exact Hio.
    + exact Hnodup.
    + intros name' Hin. cbn [driver with_driver d1 Mongo.collections].
      rewrite lookup_delete_ne.
      * apply Hpresent. right. exact Hin.
      * intros ->. contradiction.
    + exists d'. split; [|split; [exact Hio'|split; [exact Hoid|]]].
      * cbn [drop_entries snd]. unfold bind at 1, call at 1.
        unfold Mongo.dropCollection. rewrite Hio, Hdocs.
        fold d1. exact Hrun.
      * intros k. rewrite Hlook. cbn [fmap list_fmap snd].
        cbn [driver with_driver d1 Mongo.collections].
        destruct (decide (k ∈ snd <$> iter)) as [Hin|Hout].
        -- rewrite decide_True by (right; exact Hin). reflexivity.
        -- destruct (decide (k = name)) as [->|Hne].
           ++ rewrite decide_True by left. apply lookup_delete_eq.
           ++ rewrite decide_False.
              ** apply lookup_delete_ne. congruence.
              ** intros Hin. apply elem_of_cons in Hin as [E|Hin];
                   contradiction.
Qed.

(** [clear()] with an open database and a working connection resolves and
    leaves no collection. *)
Lemma clear_run (w : World) :
  Mongo.io_ok (driver w) = true ->
  databaseConnection (this w) = true ->
  exists d',
    clear w = (Ret (), with_driver d' w) /\
    Mongo.io_ok d' = true /\
    Mongo.collections d' = ∅.
Proof.
  intros Hio Hdb.
  destruct (drop_entries_run
              (entries (fst <$> map_to_list (Mongo.collections (driver w)))) w)
    as (d' & Hrun & Hio' & _ & Hlook).
  - exact Hio.
  - rewrite entries_names. apply NoDup_fst_map_to_list.
  - rewrite entries_names. intros name Hin.
    apply list_elem_of_fmap in Hin as ([name' docs] & -> & Hin).
    apply elem_of_map_to_list in Hin. eexists. exact Hin.
  - exists d'. split; [|split; [exact Hio'|]].
    + unfold clear, bind at 1, get_this. cbn [fst snd]. rewrite Hdb.
      unfold bind, call, Mongo.listCollections. rewrite Hio.
      destruct w as [d g c f]. exact Hrun.
    + apply map_empty. intros k. rewrite Hlook, entries_names.
      destruct (decide _) as [_|Hout]; [reflexivity|].
      destruct (Mongo.collections (driver w) !! k) as [docs|] eqn:Hk;
        [|reflexivity].
      exfalso. apply Hout.
      apply list_elem_of_fmap. exists (k, docs). split; [reflexivity|].
      apply elem_of_map_to_list, Hk.
Qed.

(** *** Reads after start-up and after a clear *)

Lemma fresh_ids_ensure (h : string) (d : Mongo.Driver) :
  fresh_ids d = true -> fresh_ids (Mongo.ensure_collection h d) = true.
Proof.
  rewrite !fresh_ids_spec. intros Hfresh name docs.
  destruct (decide (h = name)) as [->|Hne].
  - rewrite lookup_ensure_same. intros [= <-].
    destruct (Mongo.collections d !! name) as [old|] eqn:Hold; simpl.
    + exact (Hfresh _ _ Hold).
    + constructor.
  - rewrite lookup_ensure_other by exact Hne. apply Hfresh.
Qed.

Lemma opened_world_ready (w : World) :
  Mongo.reachable (driver w) = true ->
  fresh_ids (driver w) = true ->
  ready (opened_world w) = true.
Proof.
  destruct w as [[r co cols n] g c f]. cbn [driver Mongo.reachable].
  intros -> Hfresh. apply ready_spec. split; [|split].
  - reflexivity.
  - reflexivity.
  - cbn [driver opened_world]. unfold opened_driver.
    do 3 apply fresh_ids_ensure. exact Hfresh.
Qed.

(** The tail of [init] is the sequence of the twelve default appends. *)
Lemma seed_appends_run (w : World) :
  Mongo.reachable (driver w) = true ->
  appends seed_appends (opened_world w) = (Ret (), init_world w).
Proof.
  destruct w as [[r co cols n] g c f]. cbn [driver Mongo.reachable].
  intros ->. unfold seed_appends, opened_world.
  cbn [appends append_metric append_sensor append_value append_seq].
  world_simpl.
  do 12 step_with write_ok.
  reflexivity.
Qed.

Lemma readings_of_opened (m : Metric) (sid : string) (d : Mongo.Driver) :
  readings_of m sid (opened_driver d) = readings_of m sid d.
Proof.
  unfold readings_of, opened_driver.
  destruct m; cbn [collection_name]; lookup_collections; reflexivity.
Qed.

Lemma targets_seed (m m' : Metric) (sid k v q : string) :
  k ∈ default_sensors -> sid ∉ default_sensors ->
  targets m sid (mkAppend m' k v q) = false.
Proof.
  intros Hk Hsid. unfold targets. cbn [append_metric append_sensor].
  apply andb_false_iff. right. apply bool_decide_eq_false.
  intros ->. contradiction.
Qed.

(** The latest reading of a sensor once [init] is through. *)
Lemma latest_reading_init (m : Metric) (sid : string) (w : World) :
  Mongo.reachable (driver w) = true ->
  fresh_ids (driver w) = true ->
  latest_reading m sid (init_driver (driver w))
  = if bool_decide (sid ∈ default_sensors)
    then Some (mkReading "-1" "0")
    else latest_reading m sid (driver w).
Proof.
  intros Hreach Hfresh.
  destruct (appends_latest m sid seed_appends (opened_world w)
              (opened_world_ready w Hreach Hfresh))
    as (w' & Hrun & _ & Hlatest).
  rewrite (seed_appends_run w Hreach) in Hrun.
  injection Hrun as <-. cbn [driver init_world opened_world] in Hlatest.
  rewrite Hlatest. clear Hlatest.
  case_bool_decide as Hsid.
  - unfold default_sensors in Hsid.
    rewrite !elem_of_cons in Hsid.
    destruct Hsid as [->|[->|[->|[->|Hnil]]]];
      [destruct m; reflexivity .. | inversion Hnil].
  - unfold last_appended, seed_appends. cbn [List.filter].
    rewrite !targets_seed by (assumption || (unfold default_sensors; set_solver)).
    cbn [last fmap option_fmap option_map].
    unfold latest_reading. rewrite readings_of_opened. reflexivity.
Qed.

Lemma latest_reading_none (m : Metric) (sid : string) (d : Mongo.Driver) :
  readings_of m sid d = [] -> latest_reading m sid d = None.
Proof. intros Hnone. unfold latest_reading. rewrite Hnone. reflexivity. Qed.

Lemma readings_of_empty (m : Metric) (sid : string) (d : Mongo.Driver) :
  Mongo.collections d = ∅ -> readings_of m sid d = [].
Proof.
  intros Hempty. unfold readings_of. rewrite Hempty, lookup_empty.
  reflexivity.
Qed.

(** A read route with a sensor id in the path: the reading found, or the
    report of what the read threw. *)
Lemma getReading_run (m : Metric) (req : Request) (sid : string) (w : World) :
  params req !! "sensorId" = Some sid ->
  sid <> "" ->
  getReading m req w
  = match readLast m sid w with
    | (Ret r, w') => (Ret (mkResponse 200 (JsonReading r)), w')
    | (Throw e, w') =>
        (Ret (mkResponse (status (getError e)) (JsonStatus (getError e))), w')
    | (Exit, w') => (Exit, w')
    end.
Proof.
  intros Hparam Hsid. unfold getReading, try_catch, bind. rewrite Hparam.
  destruct sid as [|c sid]; [contradiction|]. cbn [absent String.length Nat.eqb].
  destruct (readLast m (String c sid) w) as [[r|e|] w']; reflexivity.
Qed.

(** C3 (amended). After [init] on a reachable backend, with no append
    since: the read of a sensor in 1, 2, 3, 4 resolves with the default
    value -1 and sequence number 0; the read of any other sensor that has
    no stored record rejects with the read error of the metric. After
    [clear()], with no append since, the read rejects with that error for
    every sensor, the four default ones included. *)
Theorem latest_after_init_and_after_clear
    (w : World) (m : Metric) (sid : string) :
  Mongo.reachable (driver w) = true ->
  fresh_ids (driver w) = true ->
  exists w1,
    init w = (Ret (), w1) /\
    (sid ∈ default_sensors ->
       readLast m sid w1 = (Ret (mkReading "-1" "0"), w1)) /\
    (sid ∉ default_sensors -> readings_of m sid (driver w) = [] ->
       fst (readLast m sid w1) = Throw (read_error (this w1) m)) /\
    exists w2,
      clear w1 = (Ret (), w2) /\
      fst (readLast m sid w2) = Throw (read_error (this w2) m).
Proof.
  intros Hreach Hfresh. exists (init_world w).
  assert (Hio : Mongo.io_ok (driver (init_world w)) = true).
  { destruct w as [[r co cols n] g c f]. cbn in Hreach. subst r. reflexivity. }
  split; [apply init_run, Hreach|]. split; [|split].
  - intros Hin. rewrite readLast_latest by (exact Hio || reflexivity).
    cbn [driver init_world]. rewrite latest_reading_init by assumption.
    rewrite bool_decide_eq_true_2 by exact Hin. reflexivity.
  - intros Hout Hnone. rewrite readLast_latest by (exact Hio || reflexivity).
    cbn [driver init_world]. rewrite latest_reading_init by assumption.
    rewrite bool_decide_eq_false_2 by exact Hout.
    rewrite latest_reading_none by exact Hnone. reflexivity.
  - destruct (clear_run (init_world w) Hio eq_refl)
      as (d' & Hclear & Hio' & Hempty).
    exists (with_driver d' (init_world w)). split; [exact Hclear|].
    rewrite readLast_latest by (exact Hio' || reflexivity).
    cbn [driver with_driver].
    rewrite latest_reading_none by (apply readings_of_empty, Hempty).
    reflexivity.
Qed.

Lemma latest_after_init_and_after_clear_witness :
  exists w1,
    init fresh_world = (Ret (), w1) /\
    readLast Speed "3" w1 = (Ret (mkReading "-1" "0"), w1) /\
    exists w2,
      clear w1 = (Ret (), w2) /\
      fst (readLast Speed "3" w2) = Throw (read_error (this w2) Speed).
Proof.
  destruct (latest_after_init_and_after_clear fresh_world Speed "3")
    as (w1 & Hinit & Hdefault & _ & Hclear).
  - reflexivity.
  - vm_compute. reflexivity.
  - exists w1. split; [exact Hinit|]. split; [|exact Hclear].
    apply Hdefault. unfold default_sensors. right; right; left.
Defined.

(** C3 fails as stated: after start-up, a [clear()] and no append, the
    read of sensor 1 rejects instead of returning the default; and the read
    of a sensor without records rejects with a plain string, not with a
    NOT_FOUND domain error. *)
Lemma defaults_gone_after_clear :
  fst (clear started_world) = Ret () /\
  fst (readLastTemp "1" (snd (clear started_world)))
  = Throw (ThrowString
             "One or more errors in reading Database: gnc Collection: temperature") /\
  fst (readLastTemp "7" started_world)
  = Throw (ThrowString
             "One or more errors in reading Database: gnc Collection: temperature").
Proof. vm_compute. repeat split. Qed.

(** *** A read that finds no record *)

(** C2 (amended). When the collection of a metric holds no record of the
    sensor, the read logs the missing document (sensor id included) and
    rejects with the read error of the metric, a plain string that names
    the database and the metric; the read route then answers 500 with the
    JSON body of status 500, code INTERNAL and that string as message. *)
Theorem latest_without_reading_is_internal
    (w : World) (m : Metric) (sid : string) (req : Request) :
  Mongo.io_ok (driver w) = true ->
  handles_open (this w) = true ->
  readings_of m sid (driver w) = [] ->
  params req !! "sensorId" = Some sid ->
  sid <> "" ->
  readLast m sid w
  = (Throw (read_error (this w) m), logged (LogError (no_document m sid)) w) /\
  getReading m req w
  = (Ret (mkResponse 500
            (JsonStatus
               (mkStatusReport 500 "INTERNAL" (read_error_text (this w) m)))),
     logged (LogError (no_document m sid)) w).
Proof.
  intros Hio Hh Hnone Hparam Hsid.
  assert (Hread : readLast m sid w
                  = (Throw (read_error (this w) m),
                     logged (LogError (no_document m sid)) w)).
  { rewrite readLast_latest by assumption.
    rewrite latest_reading_none by exact Hnone. reflexivity. }
  split; [exact Hread|].
  rewrite (getReading_run m req sid w Hparam Hsid), Hread. reflexivity.
Qed.

Lemma latest_without_reading_is_internal_witness :
  readLast Temperature "99" started_world
  = (Throw (read_error (this started_world) Temperature),
     logged (LogError (no_document Temperature "99")) started_world) /\
  getReading Temperature (read_request "99") started_world
  = (Ret (mkResponse 500
            (JsonStatus
               (mkStatusReport 500 "INTERNAL"
                  (read_error_text (this started_world) Temperature)))),
     logged (LogError (no_document Temperature "99")) started_world).
Proof.
  apply (latest_without_reading_is_internal started_world Temperature "99"
           (read_request "99")).
  - vm_compute. reflexivity.
  - vm_compute. reflexivity.
  - vm_compute. reflexivity.
  - vm_compute. reflexivity.
  - discriminate.
Defined.

(** C2 fails as stated: sensor 99 has no temperature record in the started
    process, yet the read rejects with a plain string (no domain error, no
    NOT_FOUND code), and [GET /temp/99] is answered 500 INTERNAL with a
    message in which 99 does not occur. *)
Lemma missing_sensor_is_not_404 :
  readings_of Temperature "99" (driver started_world) = [] /\
  fst (readLastTemp "99" started_world)
  = Throw (ThrowString
             "One or more errors in reading Database: gnc Collection: temperature") /\
  fst (getTemp (read_request "99") started_world)
  = Ret (mkResponse 500
           (JsonStatus
              (mkStatusReport 500 "INTERNAL"
                 "One or more errors in reading Database: gnc Collection: temperature"))) /\
  index 0 "99"
    "One or more errors in reading Database: gnc Collection: temperature"
  = None.
Proof. vm_compute. repeat split. Qed.

(** *** A read during an I/O fault *)

(** C8 (amended). While the backend cannot be used, the read rejects with
    the read error of the metric; a read that finds no record rejects with
    the very same value when the database name is the same. The two cases
    differ only in what was logged on the console. *)
Theorem read_fault_same_error_as_missing
    (wf wm : World) (m : Metric) (sid : string) :
  Mongo.io_ok (driver wf) = false ->
  Mongo.io_ok (driver wm) = true ->
  handles_open (this wf) = true ->
  handles_open (this wm) = true ->
  databaseName (this wf) = databaseName (this wm) ->
  readings_of m sid (driver wm) = [] ->
  fst (readLast m sid wf) = Throw (read_error (this wf) m) /\
  fst (readLast m sid wm) = fst (readLast m sid wf) /\
  console (snd (readLast m sid wf))
  = console wf ++ [LogError Mongo.topology_error] /\
  console (snd (readLast m sid wm))
  = console wm ++ [LogError (no_document m sid)].
Proof.
  intros Hfault Hio Hhf Hhm Hname Hnone.
  rewrite (readLast_fault m sid (collection_name m) wf Hfault)
    by (apply handles_open_spec, Hhf).
  rewrite readLast_latest by assumption.
  rewrite latest_reading_none by exact Hnone.
  cbn [fst snd console logged].
  unfold read_error, read_error_text. rewrite Hname.
  repeat split.
Qed.

Lemma read_fault_same_error_as_missing_witness :
  fst (readLast Temperature "99" faulty_world)
  = Throw (read_error (this faulty_world) Temperature) /\
  fst (readLast Temperature "99" started_world)
  = fst (readLast Temperature "99" faulty_world) /\
  console (snd (readLast Temperature "99" faulty_world))
  = console faulty_world ++ [LogError Mongo.topology_error] /\
  console (snd (readLast Temperature "99" started_world))
  = console started_world ++ [LogError (no_document Temperature "99")].
Proof.
  apply (read_fault_same_error_as_missing faulty_world started_world
           Temperature "99").
  - vm_compute. reflexivity.
  - vm_compute. reflexivity.
  - vm_compute. reflexivity.
  - vm_compute. reflexivity.
  - vm_compute. reflexivity.
  - vm_compute. reflexivity.
Defined.

(** C8 fails as stated: with the backend unreachable and with no record
    for sensor 99, the temperature read rejects with one and the same
    value. *)
Lemma fault_and_missing_not_distinct :
  Mongo.io_ok (driver faulty_world) = false /\
  readings_of Temperature "99" (driver started_world) = [] /\
  fst (readLastTemp "99" faulty_world)
  = Throw (ThrowString
             "One or more errors in reading Database: gnc Collection: temperature") /\
  fst (readLastTemp "99" started_world)
  = fst (readLastTemp "99" faulty_world).
Proof. vm_compute. repeat split. Qed.

(** *** Construction and the global patterns *)

(** A greedy run ends where its continuation ends. *)
Lemma star_loop_end {R : Type} (a : atom)
    (k : nat -> list ascii -> option (nat * R)) :
  (forall p r x, k p r = Some x -> fst x = p + length r) ->
  forall rest pos x,
    star_loop a k pos rest = Some x -> fst x = pos + length rest.
Proof.
  intros Hk. induction rest as [|c rest IH]; intros pos x; simpl.
  - apply Hk.
  - destruct (atom_matches a c).
    + destruct (star_loop a k (S pos) rest) as [y|] eqn:Hloop.
      * intros [= <-]. rewrite (IH _ _ Hloop). lia.
      * intros Hx. apply Hk in Hx. exact Hx.
    + intros Hx. apply Hk in Hx. exact Hx.
Qed.

(** A match of the database-name pattern ends at the end of the input:
    the pattern closes with the end-of-input assertion. *)
Lemma database_name_match_end (pos : nat) (rest : list ascii)
    (caps : captures) (x : nat * captures) :
  run database_name_pattern pos rest caps = Some x ->
  fst x = pos + length rest.
Proof.
  unfold database_name_pattern. cbn [run].
  destruct rest as [|c rest]; [discriminate|]. cbv beta iota.
  destruct (atom_matches (Lit slash) c); [|discriminate].
  destruct rest as [|c' rest]; [discriminate|]. cbv beta iota.
  destruct (atom_matches Word c'); [|discriminate].
  intros Hloop. apply star_loop_end in Hloop.
  - rewrite Hloop. cbn [length]. lia.
  - intros p r y. destruct r as [|c'' r]; [|discriminate].
    intros [= <-]. cbn [fst length]. lia.
Qed.

Lemma database_name_scan_end (rest : list ascii) :
  forall i b e caps,
    scan database_name_pattern i rest = Some (b, e, caps) ->
    e = i + length rest.
Proof.
  induction rest as [|c rest IH]; intros i b e caps; cbn [scan].
  - destruct (run database_name_pattern i [] no_captures) as [[e' caps']|]
      eqn:Hrun; [|discriminate].
    intros [= _ <- _]. apply database_name_match_end in Hrun. exact Hrun.
  - destruct (run database_name_pattern i (c :: rest) no_captures)
      as [[e' caps']|] eqn:Hrun.
    + intros [= _ <- _]. apply database_name_match_end in Hrun. exact Hrun.
    + intros Hscan. apply IH in Hscan. simpl. lia.
Qed.

(** After a successful [exec] from offset 0, [lastIndex] of the
    database-name pattern is the length of the input. *)
Lemma database_name_exec_lastIndex (str : string) (m : MatchArray)
    (re : RegExp) :
  exec (REG_DATABASE_NAME module_patterns) str = (Some m, re) ->
  re = mkRegExp database_name_pattern (length (list_ascii_of_string str)).
Proof.
  unfold exec. cbn [lastIndex REG_DATABASE_NAME module_patterns source].
  cbn [Nat.ltb Nat.leb]. rewrite drop_0.
  destruct (scan database_name_pattern 0 (list_ascii_of_string str))
    as [[[b e] caps]|] eqn:Hscan; [|discriminate].
  intros [= _ <-]. apply database_name_scan_end in Hscan.
  rewrite Hscan. reflexivity.
Qed.

(** With [lastIndex] at the end of the input the pattern finds nothing:
    [exec] returns [null] and resets [lastIndex]. *)
Lemma database_name_exec_at_end (str : string) :
  exec (mkRegExp database_name_pattern (length (list_ascii_of_string str)))
    str
  = (None, mkRegExp database_name_pattern 0).
Proof.
  unfold exec. cbn [lastIndex source].
  rewrite Nat.ltb_irrefl, drop_all. reflexivity.
Qed.

(** C10. Construction depends on the state the patterns were left in, not
    on the connection string alone: the connection string
    [mongodb://localhost:27017/gnc] is accepted by a first construction,
    and whenever a first construction (patterns in their initial state)
    accepts a string, the second construction with the identical string
    throws, since [exec] of the database-name pattern returns [null]. *)
Theorem constructor_not_repeatable :
  (exists g ps, constructor gnc_url module_patterns = (Ret g, ps)) /\
  (forall dbUrl g ps,
     constructor dbUrl module_patterns = (Ret g, ps) ->
     exists ps', constructor dbUrl ps = (Throw not_iterable, ps')).
Proof.
  split.
  - eexists. eexists. vm_compute. reflexivity.
  - intros dbUrl g ps. unfold constructor at 1.
    destruct (exec (REG_DATABASE_NAME module_patterns) dbUrl)
      as [[m1|] re1] eqn:Hexec1; [|discriminate].
    destruct (exec (REG_SERVER_URL module_patterns) dbUrl)
      as [[m2|] re2] eqn:Hexec2; [|discriminate].
    intros [= _ <-].
    apply database_name_exec_lastIndex in Hexec1. subst re1.
    unfold constructor. cbn [REG_DATABASE_NAME].
    rewrite database_name_exec_at_end. eexists. reflexivity.
Qed.

Lemma constructor_not_repeatable_witness :
  exists ps',
    constructor gnc_url
      (mkPatterns (mkRegExp database_name_pattern 29)
         (mkRegExp server_url_pattern 26))
    = (Throw not_iterable, ps').
Proof.
  apply (proj2 constructor_not_repeatable gnc_url gnc_instance).
  vm_compute. reflexivity.
Defined.

(** ** Further properties of the database class and the routes *)

(** *** What a read and a write can end with *)

Lemma readLast_unopened (m : Metric) (sid : string) (w : World) :
  collection_field m (this w) = None ->
  readLast m sid w
  = (Throw (read_error (this w) m),
     logged (LogError (undefined_receiver "findOne")) w).
Proof.
  intros Hnone.
  unfold readLast, try_catch, bind, get_this, throw, console_log; simpl.
  rewrite Hnone. destruct w as [d g c f]. reflexivity.
Qed.

(** X1. A read never touches the database, the instance or the side log,
    whatever state the process is in; it resolves, or it rejects with the
    read error of its metric. It never ends the process. *)
Theorem readLast_reads_only (m : Metric) (sid : string) (w : World) :
  driver (snd (readLast m sid w)) = driver w /\
  this (snd (readLast m sid w)) = this w /\
  files (snd (readLast m sid w)) = files w /\
  ((exists r, fst (readLast m sid w) = Ret r) \/
   fst (readLast m sid w) = Throw (read_error (this w) m)).
Proof.
  destruct (collection_field m (this w)) as [h|] eqn:Hh.
  - destruct (Mongo.io_ok (driver w)) eqn:Hio.
    + rewrite (readLast_ok m sid h w Hio Hh).
      destruct (Mongo.greatest_id _) as [doc|]; cbn; eauto 6.
    + rewrite (readLast_fault m sid h w Hio Hh). cbn. eauto 6.
  - rewrite (readLast_unopened m sid w Hh). cbn. eauto 6.
Qed.

Lemma write_fault (m : Metric) (sid val seq h : string) (w : World) :
  Mongo.io_ok (driver w) = false ->
  collection_field m (this w) = Some h ->
  write m sid val seq w
  = (Throw (write_error (this w) m), logged (LogError Mongo.topology_error) w).
Proof.
  intros Hio Hh.
  unfold write, try_catch, bind, get_this, call, throw, console_log,
    Mongo.insertOne; simpl.
  rewrite Hh; simpl. rewrite Hio; simpl.
  destruct w as [d g c f]. reflexivity.
Qed.

Lemma write_unopened (m : Metric) (sid val seq : string) (w : World) :
  collection_field m (this w) = None ->
  write m sid val seq w
  = (Throw (write_error (this w) m),
     logged (LogError (undefined_receiver "insertOne")) w).
Proof.
  intros Hnone.
  unfold write, try_catch, bind, get_this, throw, console_log; simpl.
  rewrite Hnone. destruct w as [d g c f]. reflexivity.
Qed.

(** X2. A write that cannot reach its collection (the backend is not
    usable, or the collection field was never set) rejects with the write
    error of its metric; the driver error is logged and the database is
    left as it was. *)
Theorem write_failure_keeps_store
    (m : Metric) (sid val seq : string) (w : World) :
  Mongo.io_ok (driver w) = false \/ collection_field m (this w) = None ->
  exists err,
    write m sid val seq w
    = (Throw (write_error (this w) m), logged (LogError err) w).
Proof.
  intros Hbad.
  destruct (collection_field m (this w)) as [h|] eqn:Hh.
  - destruct Hbad as [Hio|Hnone]; [|discriminate].
    eexists. apply (write_fault m sid val seq h w Hio Hh).
  - eexists. apply (write_unopened m sid val seq w Hh).
Qed.

Lemma write_failure_keeps_store_witness :
  exists err,
    write Distance "2" "7" "1" faulty_world
    = (Throw (write_error (this faulty_world) Distance),
       logged (LogError err) faulty_world).
Proof.
  apply (write_failure_keeps_store Distance "2" "7" "1" faulty_world).
  left. vm_compute. reflexivity.
Defined.

(** *** The routes, end to end *)

Lemma write_outcome (m : Metric) (sid val seq : string) (w : World) :
  (exists w', write m sid val seq w = (Ret (), w')) \/
  (exists w', write m sid val seq w = (Throw (write_error (this w) m), w')).
Proof.
  destruct (collection_field m (this w)) as [h|] eqn:Hh.
  - destruct (Mongo.io_ok (driver w)) eqn:Hio.
    + left. eexists. apply write_ok; eassumption.
    + right. eexists. apply (write_fault m sid val seq h w Hio Hh).
  - right. eexists. apply (write_unopened m sid val seq w Hh).
Qed.

(** A write route with its three parameters present: the side log, the
    write, and the answer. *)
Lemma setReading_run
    (m : Metric) (req : Request) (sid val seq : string) (w : World) :
  query req !! "sensorId" = Some sid ->
  query req !! "value" = Some val ->
  query req !! "seqNum" = Some seq ->
  sid <> "" -> val <> "" -> seq <> "" ->
  setReading m req w
  = match write m sid val seq (side_logged m sid val w) with
    | (Ret _, w') =>
        (Ret (mkResponse 201 (JsonUrl (write_url m sid val seq))), w')
    | (Throw e, w') =>
        (Ret (mkResponse (status (getError e)) (JsonStatus (getError e))), w')
    | (Exit, w') => (Exit, w')
    end.
Proof.
  intros Hsid Hval Hseq Nsid Nval Nseq.
  unfold setReading, try_catch. rewrite Hsid, Hval, Hseq.
  destruct sid as [|c1 sid]; [contradiction|].
  destruct val as [|c2 val]; [contradiction|].
  destruct seq as [|c3 seq]; [contradiction|].
  cbn [absent String.length Nat.eqb orb].
  unfold bind at 1. unfold writeFile at 1. fold (side_logged m (String c1 sid) (String c2 val) w).
  unfold bind.
  destruct (write m _ _ _ _) as [[[]|e|] w']; reflexivity.
Qed.



(** X4. A read route whose [sensorId] path parameter is missing or empty
    answers 400 with code BAD_REQUEST and the hint for its metric, and
    leaves the process untouched: the database is not queried. *)
Theorem getReading_rejects_absent_sensor
    (m : Metric) (req : Request) (w : World) :
  absent (params req !! "sensorId") = true ->
  getReading m req w
  = (Ret (mkResponse 400
            (JsonStatus
               (mkStatusReport 400 "BAD_REQUEST"
                  ("Incorrect url, try like > /" +:+ route m +:+ "/1")))),
     w).
Proof.
  intros Habs. unfold getReading, try_catch.
  destruct (params req !! "sensorId") as [sensorId|]; [|reflexivity].
  rewrite Habs. reflexivity.
Qed.

Lemma getReading_rejects_absent_sensor_witness :
  getReading Speed (mkRequest ∅ ∅) started_world
  = (Ret (mkResponse 400
            (JsonStatus
               (mkStatusReport 400 "BAD_REQUEST"
                  ("Incorrect url, try like > /" +:+ route Speed +:+ "/1")))),
     started_world).
Proof.
  apply (getReading_rejects_absent_sensor Speed (mkRequest ∅ ∅) started_world).
  vm_compute. reflexivity.
Defined.

(** A read route always answers; the database is left as it was. *)
Lemma getReading_answers (m : Metric) (req : Request) (w : World) :
  exists resp w',
    getReading m req w = (Ret resp, w') /\
    driver w' = driver w /\
    (statusCode resp = 200 \/ statusCode resp = 400
     \/ statusCode resp = 500).
Proof.
  destruct (absent (params req !! "sensorId")) eqn:Habs.
  - unfold getReading, try_catch.
    destruct (params req !! "sensorId") as [sensorId|].
    + rewrite Habs. do 2 eexists. split; [reflexivity|]. cbn. auto.
    + do 2 eexists. split; [reflexivity|]. cbn. auto.
  - destruct (params req !! "sensorId") as [sid|] eqn:Hparam;
      [|discriminate].
    assert (Nsid : sid <> "") by (intros ->; discriminate).
    rewrite (getReading_run m req sid w Hparam Nsid).
    destruct (collection_field m (this w)) as [h|] eqn:Hh.
    + destruct (Mongo.io_ok (driver w)) eqn:Hio.
      * rewrite (readLast_ok m sid h w Hio Hh).
        destruct (Mongo.greatest_id _) as [doc|];
          do 2 eexists; (split; [reflexivity|]); cbn; auto.
      * rewrite (readLast_fault m sid h w Hio Hh).
        do 2 eexists. split; [reflexivity|]. cbn. auto.
    + rewrite (readLast_unopened m sid w Hh).
      do 2 eexists. split; [reflexivity|]. cbn. auto.
Qed.

(** A write route always answers. *)
Lemma setReading_answers (m : Metric) (req : Request) (w : World) :
  exists resp w',
    setReading m req w = (Ret resp, w') /\
    (statusCode resp = 201 \/ statusCode resp = 400
     \/ statusCode resp = 500).
Proof.
  destruct (absent (query req !! "sensorId") || absent (query req !! "value")
            || absent (query req !! "seqNum")) eqn:Habs.
  - unfold setReading, try_catch.
    destruct (query req !! "sensorId") as [sid|];
      destruct (query req !! "value") as [val|];
      destruct (query req !! "seqNum") as [seq|];
      try (do 2 eexists; split; [reflexivity|]; cbn; auto).
    rewrite Habs. do 2 eexists. split; [reflexivity|]. cbn. auto.
  - destruct (query req !! "sensorId") as [sid|] eqn:Hsid;
      [|discriminate].
    destruct (query req !! "value") as [val|] eqn:Hval;
      [|cbn in Habs; rewrite orb_true_r in Habs; discriminate].
    destruct (query req !! "seqNum") as [seq|] eqn:Hseq;
      [|cbn in Habs; rewrite orb_true_r in Habs; discriminate].
    apply orb_false_iff in Habs as [Habs Hq].
    apply orb_false_iff in Habs as [Hs Hv].
    assert (Nsid : sid <> "") by (intros ->; discriminate).
    assert (Nval : val <> "") by (intros ->; discriminate).
    assert (Nseq : seq <> "") by (intros ->; discriminate).
    rewrite (setReading_run m req sid val seq w) by assumption.
    destruct (write_outcome m sid val seq (side_logged m sid val w))
      as [[w' Hw]|[w' Hw]]; rewrite Hw;
      do 2 eexists; (split; [reflexivity|]); cbn; auto.
Qed.

(** X5. Whatever the request and the state of the process, a read route
    answers, with status 200, 400 or 500, and leaves the database as it
    was; a write route answers with status 201, 400 or 500. Neither ever
    answers 404 or 409, and neither passes an error on. *)
Theorem routes_always_answer (m : Metric) (req : Request) (w : World) :
  (exists resp w',
     getReading m req w = (Ret resp, w') /\
     driver w' = driver w /\
     (statusCode resp = 200 \/ statusCode resp = 400
      \/ statusCode resp = 500)) /\
  (exists resp w',
     setReading m req w = (Ret resp, w') /\
     (statusCode resp = 201 \/ statusCode resp = 400
      \/ statusCode resp = 500)).
Proof.
  split; [apply getReading_answers | apply setReading_answers].
Qed.

(** A handler that answers is not wrapped into anything else. *)
Lemma errorWrap_answered
    (handler : Request -> M Response) (req : Request) (w w' : World)
    (resp : Response) :
  handler req w = (Ret resp, w') ->
  errorWrap handler doErrors req w = (Ret (inl resp), w').
Proof.
  intros Hh. unfold errorWrap, try_catch, bind. rewrite Hh. reflexivity.
Qed.

(** X15. The error middleware is out of reach of the routes: wrapped in
    [errorWrap], each read route, write route and the two database routes
    send their own answer in every state of the process and for every
    request; [next(err)] is never called, so [doErrors] never answers for
    them. *)
Theorem routes_never_reach_doErrors (req : Request) (w : World) :
  (forall m, exists resp w',
     errorWrap (getReading m) doErrors req w = (Ret (inl resp), w')) /\
  (forall m, exists resp w',
     errorWrap (setReading m) doErrors req w = (Ret (inl resp), w')) /\
  (exists resp w',
     errorWrap (fun _ => closeDatabase) doErrors req w = (Ret (inl resp), w')) /\
  (exists resp w',
     errorWrap (fun _ => clearDatabase) doErrors req w = (Ret (inl resp), w')).
Proof.
  split; [|split; [|split]].
  - intros m. destruct (getReading_answers m req w) as (resp & w' & H & _).
    exists resp, w'. apply errorWrap_answered, H.
  - intros m. destruct (setReading_answers m req w) as (resp & w' & H & _).
    exists resp, w'. apply errorWrap_answered, H.
  - assert (Hclose : exists resp w', closeDatabase w = (Ret resp, w')).
    { unfold closeDatabase. change (invoke "close") with close.
      unfold try_catch, close, bind, get_this, call, Mongo.close, console_log.
      cbn [fst snd].
      destruct (mongoDBConnection (this w)); do 2 eexists; reflexivity. }
    destruct Hclose as (resp & w' & Hclose).
    exists resp, w'. apply errorWrap_answered, Hclose.
  - do 2 eexists. apply errorWrap_answered.
    destruct w as [d g c f]. reflexivity.
Qed.

(** *** Start-up, clearing and closing *)

(** X6. When the backend cannot be reached [init] prints the failure line
    and ends the process: nothing is created, the instance keeps its
    fields, and nothing after the connection attempt runs. *)
Theorem init_exits_when_unreachable (w : World) :
  Mongo.reachable (driver w) = false ->
  init w = (Exit, logged connect_failed_line w).
Proof.
  intros Hdown.
  unfold init, bind at 1, try_catch, bind at 1, call, Mongo.connect.
  rewrite Hdown. destruct w as [d g c f]. reflexivity.
Qed.

Lemma init_exits_when_unreachable_witness :
  init (with_driver (Mongo.mkDriver false false ∅ 0) fresh_world)
  = (Exit,
     logged connect_failed_line
       (with_driver (Mongo.mkDriver false false ∅ 0) fresh_world)).
Proof.
  apply (init_exits_when_unreachable
           (with_driver (Mongo.mkDriver false false ∅ 0) fresh_world)).
  reflexivity.
Defined.

(** X7. [clear()] before the database was opened does nothing at all. With
    the database open and the backend usable it resolves and leaves the
    database without any collection, whatever their names and number,
    the instance and the console as they were. With the database open and
    the backend not usable it rejects with the driver's own error: unlike
    the reads and writes it has no catch. *)
Theorem clear_drops_every_collection (w : World) :
  (databaseConnection (this w) = false -> clear w = (Ret (), w)) /\
  (databaseConnection (this w) = true -> Mongo.io_ok (driver w) = true ->
     exists w',
       clear w = (Ret (), w') /\
       Mongo.collections (driver w') = ∅ /\
       this w' = this w /\ console w' = console w) /\
  (databaseConnection (this w) = true -> Mongo.io_ok (driver w) = false ->
     clear w = (Throw Mongo.topology_error, w)).
Proof.
  split; [|split].
  - intros Hnull. unfold clear, bind, get_this; cbn [fst snd].
    rewrite Hnull. reflexivity.
  - intros Hdb Hio.
    destruct (clear_run w Hio Hdb) as (d' & Hclear & _ & Hempty).
    exists (with_driver d' w). repeat split; assumption.
  - intros Hdb Hio.
    unfold clear, bind at 1, get_this; cbn [fst snd]. rewrite Hdb.
    unfold bind, call, Mongo.listCollections. rewrite Hio.
    destruct w as [d g c f]. reflexivity.
Qed.

Lemma clear_drops_every_collection_witness :
  clear fresh_world = (Ret (), fresh_world) /\
  (exists w',
     clear started_world = (Ret (), w') /\
     Mongo.collections (driver w') = ∅ /\
     this w' = this started_world /\ console w' = console started_world) /\
  clear faulty_world = (Throw Mongo.topology_error, faulty_world).
Proof.
  split; [|split].
  - apply (proj1 (clear_drops_every_collection fresh_world)). reflexivity.
  - apply (proj1 (proj2 (clear_drops_every_collection started_world)));
      vm_compute; reflexivity.
  - apply (proj2 (proj2 (clear_drops_every_collection faulty_world)));
      vm_compute; reflexivity.
Defined.

(** X8. After a [clear()] the process still serves: a write resolves (the
    insertion creates the dropped collection again), that collection then
    holds exactly the one new record, and the read of the sensor returns
    it. *)
Theorem write_after_clear
    (m : Metric) (sid val seq : string) (w : World) :
  Mongo.io_ok (driver w) = true ->
  databaseConnection (this w) = true ->
  handles_open (this w) = true ->
  exists w1 w2 doc,
    clear w = (Ret (), w1) /\
    write m sid val seq w1 = (Ret (), w2) /\
    Mongo.collections (driver w2) = {[collection_name m := [doc]]} /\
    fields doc = (sid, val, seq) /\
    readLast m sid w2 = (Ret (mkReading val seq), w2).
Proof.
  intros Hio Hdb Hh.
  destruct (clear_run w Hio Hdb) as (d' & Hclear & Hio' & Hempty).
  pose proof (handles_open_spec _ Hh m) as Hfield.
  exists (with_driver d' w).
  exists (with_driver
            (Mongo.append_document (collection_name m) sid val seq d')
            (with_driver d' w)).
  exists (Mongo.mkDocument (Mongo.next_oid d') sid val seq).
  split; [exact Hclear|]. split; [|split; [|split]].
  - apply write_ok; assumption.
  - cbn [driver with_driver Mongo.append_document Mongo.collections].
    rewrite Hempty, lookup_empty. cbn [default from_option app].
    apply insert_empty.
  - reflexivity.
  - rewrite (readLast_ok m sid (collection_name m)) by assumption.
    cbn [driver with_driver Mongo.append_document Mongo.collections].
    rewrite lookup_insert_eq, Hempty, lookup_empty.
    cbn [default from_option id app List.filter].
    unfold Mongo.matches. cbn [Mongo.sensorID].
    rewrite decide_True by reflexivity. reflexivity.
Qed.

Lemma write_after_clear_witness :
  exists w1 w2 doc,
    clear started_world = (Ret (), w1) /\
    write Speed "9" "310" "17" w1 = (Ret (), w2) /\
    Mongo.collections (driver w2) = {[collection_name Speed := [doc]]} /\
    fields doc = ("9", "310", "17") /\
    readLast Speed "9" w2 = (Ret (mkReading "310" "17"), w2).
Proof.
  apply (write_after_clear Speed "9" "310" "17" started_world);
    vm_compute; reflexivity.
Defined.

(** X9. [close()] does not forget the connection: after it, every read
    rejects with the read error and every write with the write error of its
    metric, and a rejected write leaves the stored records as they were.
    Nothing in the class connects again. *)
Theorem closed_connection_rejects
    (m : Metric) (sid val seq : string) (w : World) :
  mongoDBConnection (this w) = true ->
  exists w1,
    close w = (Ret (), w1) /\
    this w1 = this w /\
    fst (readLast m sid w1) = Throw (read_error (this w) m) /\
    fst (write m sid val seq w1) = Throw (write_error (this w) m) /\
    Mongo.collections (driver (snd (write m sid val seq w1)))
    = Mongo.collections (driver w).
Proof.
  intros Hconn.
  set (w1 := logged closed_line
               (with_driver
                  (Mongo.mkDriver (Mongo.reachable (driver w)) false
                     (Mongo.collections (driver w))
                     (Mongo.next_oid (driver w))) w)).
  assert (Hio : Mongo.io_ok (driver w1) = false).
  { unfold w1, Mongo.io_ok. cbn. apply andb_false_r. }
  exists w1. split; [|split; [reflexivity|split; [|split]]].
  - unfold close, bind, get_this, call, Mongo.close, console_log.
    cbn [fst snd]. rewrite Hconn. destruct w as [d g c f]. reflexivity.
  - destruct (collection_field m (this w1)) as [h|] eqn:Hh.
    + rewrite (readLast_fault m sid h w1 Hio Hh). reflexivity.
    + rewrite (readLast_unopened m sid w1 Hh). reflexivity.
  - destruct (collection_field m (this w1)) as [h|] eqn:Hh.
    + rewrite (write_fault m sid val seq h w1 Hio Hh). reflexivity.
    + rewrite (write_unopened m sid val seq w1 Hh). reflexivity.
  - destruct (collection_field m (this w1)) as [h|] eqn:Hh.
    + rewrite (write_fault m sid val seq h w1 Hio Hh). reflexivity.
    + rewrite (write_unopened m sid val seq w1 Hh). reflexivity.
Qed.

Lemma closed_connection_rejects_witness :
  exists w1,
    close started_world = (Ret (), w1) /\
    this w1 = this started_world /\
    fst (readLast Temperature "1" w1)
    = Throw (read_error (this started_world) Temperature) /\
    fst (write Temperature "1" "26" "5" w1)
    = Throw (write_error (this started_world) Temperature) /\
    Mongo.collections (driver (snd (write Temperature "1" "26" "5" w1)))
    = Mongo.collections (driver started_world).
Proof.
  apply (closed_connection_rejects Temperature "1" "26" "5" started_world).
  vm_compute. reflexivity.
Defined.

(** *** Writes are appends *)

(** X10. A write to another sensor or to another metric does not change
    what the read of a sensor resolves or rejects with. *)
Theorem write_elsewhere_keeps_latest
    (m m' : Metric) (sid sid' val seq : string) (w : World) :
  ready w = true ->
  m' <> m \/ sid' <> sid ->
  exists w',
    write m' sid' val seq w = (Ret (), w') /\
    fst (readLast m sid w') = fst (readLast m sid w).
Proof.
  intros Hready Hother.
  destruct (write_ready m' sid' val seq w Hready) as [Hwrite Hready'].
  eexists. split; [exact Hwrite|].
  apply ready_spec in Hready as (Hio & Hh & _).
  apply ready_spec in Hready' as (Hio' & Hh' & _).
  rewrite !readLast_latest by assumption.
  cbn [driver with_driver this].
  rewrite latest_reading_append_other by exact Hother.
  destruct (latest_reading m sid (driver w)); reflexivity.
Qed.

Lemma write_elsewhere_keeps_latest_witness :
  exists w',
    write Temperature "2" "31" "8" started_world = (Ret (), w') /\
    fst (readLast Temperature "1" w')
    = fst (readLast Temperature "1" started_world).
Proof.
  apply (write_elsewhere_keeps_latest Temperature Temperature "1" "2" "31" "8"
           started_world).
  - vm_compute. reflexivity.
  - right. discriminate.
Defined.

Lemma keeps_records_refl (d : Mongo.Driver) : keeps_records d d.
Proof. intros name docs Hdocs. exists []. rewrite app_nil_r. exact Hdocs. Qed.

Lemma keeps_records_trans (d1 d2 d3 : Mongo.Driver) :
  keeps_records d1 d2 -> keeps_records d2 d3 -> keeps_records d1 d3.
Proof.
  intros H12 H23 name docs Hdocs.
  destruct (H12 _ _ Hdocs) as [more Hmore].
  destruct (H23 _ _ Hmore) as [more' Hmore'].
  exists (more ++ more'). rewrite app_assoc. exact Hmore'.
Qed.

Lemma keeps_records_append (h sid val seq : string) (d : Mongo.Driver) :
  keeps_records d (Mongo.append_document h sid val seq d).
Proof.
  intros name docs Hdocs.
  destruct (decide (h = name)) as [->|Hne].
  - rewrite lookup_append_same, Hdocs. eexists. reflexivity.
  - rewrite lookup_append_other by exact Hne.
    exists []. rewrite app_nil_r. exact Hdocs.
Qed.

(** X11. The store is append-only under writes: a sequence of appends in
    a serving process resolves, hands out one ObjectId per append, and
    every record stored before is still in its collection, at its place
    and unchanged; new records only come after it. *)
Theorem appends_keep_records (l : list Append) :
  forall w, ready w = true ->
  exists w',
    appends l w = (Ret (), w') /\
    keeps_records (driver w) (driver w') /\
    Mongo.next_oid (driver w') = Mongo.next_oid (driver w) + length l.
Proof.
  induction l as [|a l IH]; intros w Hready.
  - exists w. split; [reflexivity|]. split; [apply keeps_records_refl|].
    cbn [length]. lia.
  - destruct (write_ready (append_metric a) (append_sensor a)
                (append_value a) (append_seq a) w Hready) as [Hw Hready1].
    destruct (IH _ Hready1) as (w' & Hrun & Hkeep & Hoid).
    exists w'. split; [|split].
    + cbn [appends]. unfold bind. rewrite Hw. exact Hrun.
    + eapply keeps_records_trans; [|exact Hkeep].
      apply keeps_records_append.
    + rewrite Hoid. cbn [driver with_driver Mongo.append_document
                         Mongo.next_oid length]. lia.
Qed.

Lemma appends_keep_records_witness :
  exists w',
    appends [mkAppend Temperature "1" "26" "5"; mkAppend Speed "7" "3" "1"]
      started_world
    = (Ret (), w') /\
    keeps_records (driver started_world) (driver w') /\
    Mongo.next_oid (driver w')
    = Mongo.next_oid (driver started_world)
      + length [mkAppend Temperature "1" "26" "5"; mkAppend Speed "7" "3" "1"].
Proof.
  apply (appends_keep_records
           [mkAppend Temperature "1" "26" "5"; mkAppend Speed "7" "3" "1"]
           started_world).
  vm_compute. reflexivity.
Defined.

(** *** What the constructor accepts *)

Lemma list_ascii_of_string_app (a b : string) :
  list_ascii_of_string (a +:+ b)
  = list_ascii_of_string a ++ list_ascii_of_string b.
Proof.
  induction a as [|c a IH]; simpl; [reflexivity|]. f_equal. exact IH.
Qed.

(** The continuation after the captured name: close the group, then the
    end of the input. *)
Lemma after_name_only_at_end (p : nat) (r : list ascii) (caps : captures) :
  r <> [] -> run [Close; Eol] p r caps = None.
Proof. destruct r; [contradiction|reflexivity]. Qed.

(** A greedy run that meets a character it cannot take, in front of a
    continuation that needs the end of the input, fails. *)
Lemma star_loop_blocked {R : Type} (a : atom)
    (k : nat -> list ascii -> option R) (rest : list ascii) :
  (forall p r, r <> [] -> k p r = None) ->
  existsb (fun c => negb (atom_matches a c)) rest = true ->
  forall pos, star_loop a k pos rest = None.
Proof.
  intros Hk. induction rest as [|c rest IH]; cbn [existsb]; [discriminate|].
  intros Hex pos. cbn [star_loop].
  destruct (atom_matches a c) eqn:Hc; cbn [negb orb] in Hex.
  - rewrite (IH Hex). apply Hk. discriminate.
  - apply Hk. discriminate.
Qed.

(** A greedy run over characters it can all take reaches the end. *)
Lemma star_loop_all {R : Type} (a : atom)
    (k : nat -> list ascii -> option R) (rest : list ascii) (x : R) :
  forallb (atom_matches a) rest = true ->
  forall pos,
    k (pos + length rest) [] = Some x ->
    star_loop a k pos rest = Some x.
Proof.
  induction rest as [|c rest IH]; cbn [forallb length]; intros Hall pos Hk.
  - rewrite Nat.add_0_r in Hk. exact Hk.
  - apply andb_true_iff in Hall as [Hc Hall]. cbn [star_loop]. rewrite Hc.
    rewrite (IH Hall (S pos)); [reflexivity|].
    rewrite <- Hk. f_equal. lia.
Qed.

Lemma slash_is_no_word : is_word slash = false.
Proof. reflexivity. Qed.

(** In front of a later slash the database-name pattern does not match. *)
Lemma database_name_not_before_slash
    (c : ascii) (pre name : list ascii) (pos : nat) (caps : captures) :
  run database_name_pattern pos (c :: pre ++ slash :: name) caps = None.
Proof.
  unfold database_name_pattern. cbn [run].
  destruct (atom_matches (Lit slash) c); [|reflexivity].
  destruct pre as [|c' pre]; cbn [app].
  - cbn [atom_matches]. rewrite slash_is_no_word. reflexivity.
  - destruct (atom_matches Word c'); [|reflexivity].
    apply star_loop_blocked.
    + intros p r Hr. apply after_name_only_at_end, Hr.
    + rewrite existsb_app. cbn [existsb atom_matches].
      rewrite slash_is_no_word. cbn. apply orb_true_r.
Qed.

(** At the last slash, followed by a name of word characters, it does. *)
Lemma database_name_at_last_slash
    (c : ascii) (name : list ascii) (pos : nat) (caps : captures) :
  forallb is_word (c :: name) = true ->
  run database_name_pattern pos (slash :: c :: name) caps
  = Some (pos + 2 + length name,
          Captures (S pos) (Some (S pos, pos + 2 + length name))).
Proof.
  cbn [forallb]. intros Hall. apply andb_true_iff in Hall as [Hc Hall].
  unfold database_name_pattern. cbn [run atom_matches].
  rewrite decide_True by reflexivity. rewrite Hc.
  apply star_loop_all; [exact Hall|].
  cbn [run cap_start cap_range]. repeat f_equal; lia.
Qed.

Lemma database_name_scan_finds
    (pre : list ascii) (c : ascii) (name : list ascii) :
  forallb is_word (c :: name) = true ->
  forall i,
    scan database_name_pattern i (pre ++ slash :: c :: name)
    = Some (i + length pre, i + length pre + 2 + length name,
            Captures (S (i + length pre))
              (Some (S (i + length pre), i + length pre + 2 + length name))).
Proof.
  intros Hall. induction pre as [|x pre IH]; intros i; cbn [app length].
  - cbn [scan]. rewrite (database_name_at_last_slash c name i _ Hall).
    rewrite Nat.add_0_r. reflexivity.
  - cbn [scan].
    rewrite (database_name_not_before_slash x pre (c :: name) i).
    rewrite IH, !Nat.add_succ_r. reflexivity.
Qed.

Lemma word_is_no_slash (c : ascii) :
  is_word c = true -> atom_matches (Lit slash) c = false.
Proof.
  intros Hw. cbn [atom_matches].
  destruct (decide (c = slash)) as [->|_]; [|reflexivity].
  rewrite slash_is_no_word in Hw. discriminate.
Qed.

Lemma word_is_no_terminator (c : ascii) :
  is_word c = true -> is_line_terminator c = false.
Proof.
  unfold is_word, is_line_terminator. intros Hw.
  destruct (JsRegExp.code c =? 10)%nat eqn:H10.
  - apply Nat.eqb_eq in H10. rewrite H10 in Hw. discriminate.
  - destruct (JsRegExp.code c =? 13)%nat eqn:H13; [|reflexivity].
    apply Nat.eqb_eq in H13. rewrite H13 in Hw. discriminate.
Qed.

(** The continuation after the captured server part: close the group,
    then a slash. *)
Lemma server_url_needs_slash (name : list ascii) (caps : captures) :
  forallb (fun c => negb (atom_matches (Lit slash) c)) name = true ->
  forall pos,
    star_loop Dot (fun p r => run [Close; One (Lit slash)] p r caps) pos name
    = None.
Proof.
  induction name as [|c name IH]; cbn [forallb]; intros Hname pos.
  - reflexivity.
  - apply andb_true_iff in Hname as [Hc Hname].
    apply negb_true_iff in Hc. cbn [star_loop].
    rewrite (IH Hname). cbn [run]. rewrite Hc.
    destruct (atom_matches Dot c); reflexivity.
Qed.

(** The greedy run of the server pattern gives characters back down to
    the last slash of the line. *)
Lemma server_url_greedy (server name : list ascii) (caps : captures) :
  forallb (fun c => negb (is_line_terminator c)) server = true ->
  forallb (fun c => negb (atom_matches (Lit slash) c)) name = true ->
  forall pos,
    star_loop Dot (fun p r => run [Close; One (Lit slash)] p r caps) pos
      (server ++ slash :: name)
    = Some (pos + length server + 1,
            Captures (cap_start caps)
              (Some (cap_start caps, pos + length server))).
Proof.
  intros Hserver Hname.
  induction server as [|c server IH]; intros pos; cbn [app length star_loop].
  - cbn [atom_matches is_line_terminator]. 
    replace (negb (is_line_terminator slash)) with true by reflexivity.
    rewrite (server_url_needs_slash name caps Hname).
    cbn [run atom_matches]. rewrite decide_True by reflexivity.
    rewrite Nat.add_0_r, Nat.add_1_r. reflexivity.
  - cbn [forallb] in Hserver. apply andb_true_iff in Hserver as [Hc Hserver].
    cbn [atom_matches]. rewrite Hc. rewrite (IH Hserver).
    rewrite !Nat.add_succ_r. reflexivity.
Qed.

Lemma length_list_ascii (s : string) :
  length (list_ascii_of_string s) = String.length s.
Proof. induction s as [|c s IH]; simpl; [reflexivity|]. f_equal. exact IH. Qed.

Lemma substring_suffix (pre rest : list ascii) (e : nat) :
  e = length pre + length rest ->
  substring (pre ++ rest) (length pre) e = string_of_list_ascii rest.
Proof.
  intros ->. unfold substring.
  rewrite drop_app_length.
  replace (length pre + length rest - length pre) with (length rest) by lia.
  rewrite firstn_all. reflexivity.
Qed.

Lemma substring_prefix (pre rest : list ascii) :
  substring (pre ++ rest) 0 (length pre) = string_of_list_ascii pre.
Proof.
  unfold substring. rewrite drop_0, Nat.sub_0_r, take_app_length. reflexivity.
Qed.

Lemma forallb_word_no_slash (name : list ascii) :
  forallb is_word name = true ->
  forallb (fun c => negb (atom_matches (Lit slash) c)) name = true.
Proof.
  induction name as [|c name IH]; cbn [forallb]; [reflexivity|].
  intros Hall. apply andb_true_iff in Hall as [Hc Hall].
  rewrite (word_is_no_slash c Hc), (IH Hall). reflexivity.
Qed.

(** [exec] of the database-name pattern, from offset 0, on a string that
    ends in a slash and a name of word characters. *)
Lemma database_name_exec_finds (server name : string) :
  word_string name = true -> name <> "" ->
  exec (mkRegExp database_name_pattern 0) (server +:+ "/" +:+ name)
  = (Some (mkMatch ("/" +:+ name) (Some name)),
     mkRegExp database_name_pattern
       (String.length server + 1 + String.length name)).
Proof.
  intros Hword Hname.
  destruct name as [|c name]; [contradiction|].
  unfold exec. cbn [lastIndex source Nat.ltb Nat.leb].
  rewrite drop_0, list_ascii_of_string_app.
  change (list_ascii_of_string ("/" +:+ String c name))
    with (slash :: c :: list_ascii_of_string name).
  unfold word_string in Hword. cbn [list_ascii_of_string] in Hword.
  rewrite (database_name_scan_finds _ c _ Hword 0).
  cbn [cap_range Nat.add].
  rewrite (substring_suffix (list_ascii_of_string server)
             (slash :: c :: list_ascii_of_string name))
    by (cbn [length]; lia).
  change (list_ascii_of_string server ++ slash :: c :: list_ascii_of_string name)
    with (list_ascii_of_string server
          ++ [slash] ++ c :: list_ascii_of_string name).
  rewrite app_assoc.
  replace (S (length (list_ascii_of_string server)))
    with (length (list_ascii_of_string server ++ [slash]))
    by (rewrite length_app; cbn [length]; lia).
  rewrite (substring_suffix (list_ascii_of_string server ++ [slash])
             (c :: list_ascii_of_string name))
    by (rewrite length_app; cbn [length]; lia).
  cbn [string_of_list_ascii]. rewrite string_of_list_ascii_of_string.
  rewrite !length_list_ascii. cbn [String.length].
  replace (String.length server + 2 + String.length name)
    with (String.length server + 1 + S (String.length name)) by lia.
  reflexivity.
Qed.

Lemma scan_first (ns : list node) (i e : nat) (rest : list ascii)
    (caps : captures) :
  run ns i rest no_captures = Some (e, caps) ->
  scan ns i rest = Some (i, e, caps).
Proof. intros Hrun. destruct rest; cbn [scan]; rewrite Hrun; reflexivity. Qed.

Lemma server_url_run_start (rest : list ascii) :
  run server_url_pattern 0 rest no_captures
  = star_loop Dot
      (fun p r => run [Close; One (Lit slash)] p r (Captures 0 None)) 0 rest.
Proof. reflexivity. Qed.

(** [exec] of the server pattern, from offset 0, on a one-line server part
    followed by a slash and a name without slashes. *)
Lemma server_url_exec_finds (server name : string) :
  single_line server = true -> word_string name = true ->
  exec (mkRegExp server_url_pattern 0) (server +:+ "/" +:+ name)
  = (Some (mkMatch (server +:+ "/") (Some server)),
     mkRegExp server_url_pattern (String.length server + 1)).
Proof.
  intros Hline Hword.
  unfold exec. cbn [lastIndex source Nat.ltb Nat.leb].
  rewrite drop_0, list_ascii_of_string_app.
  change (list_ascii_of_string ("/" +:+ name))
    with (slash :: list_ascii_of_string name).
  assert (Hrun : run server_url_pattern 0
                   (list_ascii_of_string server
                    ++ slash :: list_ascii_of_string name) no_captures
                 = Some (length (list_ascii_of_string server) + 1,
                         Captures 0
                           (Some (0, length (list_ascii_of_string server))))).
  { rewrite server_url_run_start.
    rewrite (server_url_greedy _ _ _ Hline
               (forallb_word_no_slash _ Hword) 0).
    reflexivity. }
  rewrite (scan_first _ _ _ _ _ Hrun). cbn [cap_range].
  rewrite substring_prefix.
  change (list_ascii_of_string server ++ slash :: list_ascii_of_string name)
    with (list_ascii_of_string server
          ++ [slash] ++ list_ascii_of_string name).
  rewrite app_assoc.
  replace (length (list_ascii_of_string server) + 1)
    with (length (list_ascii_of_string server ++ [slash]))
    by (rewrite length_app; reflexivity).
  rewrite substring_prefix.
  rewrite length_app, length_list_ascii; cbn [length].
  change [slash] with (list_ascii_of_string "/").
  rewrite <- list_ascii_of_string_app, !string_of_list_ascii_of_string.
  reflexivity.
Qed.

(** X12. The constructor splits a connection string at its last slash: for
    a one-line server part and a non-empty database name of word
    characters, the first construction yields exactly that server URL and
    that database name, and leaves the two patterns advanced to the end of
    the string and to just after the slash. *)
Theorem constructor_parses_connection_string (server name : string) :
  single_line server = true ->
  word_string name = true ->
  name <> "" ->
  constructor (server +:+ "/" +:+ name) module_patterns
  = (Ret (mkGNCDatabase (Some name) (Some server) false false None None None),
     patterns_at (String.length server + 1 + String.length name)
       (String.length server + 1)).
Proof.
  intros Hline Hword Hname.
  unfold constructor, module_patterns.
  cbn [REG_DATABASE_NAME REG_SERVER_URL].
  rewrite (database_name_exec_finds server name Hword Hname).
  rewrite (server_url_exec_finds server name Hline Hword).
  reflexivity.
Qed.

Lemma constructor_parses_connection_string_witness :
  constructor ("mongodb://localhost:27017" +:+ "/" +:+ "gnc") module_patterns
  = (Ret (mkGNCDatabase (Some "gnc") (Some "mongodb://localhost:27017")
            false false None None None),
     patterns_at (String.length "mongodb://localhost:27017" + 1
                  + String.length "gnc")
       (String.length "mongodb://localhost:27017" + 1)).
Proof.
  apply (constructor_parses_connection_string "mongodb://localhost:27017"
           "gnc").
  - vm_compute. reflexivity.
  - vm_compute. reflexivity.
  - discriminate.
Defined.

(** A greedy run in front of a continuation that needs the end of the
    input succeeds only if it can take every remaining character. *)
Lemma star_loop_took_all {R : Type} (a : atom)
    (k : nat -> list ascii -> option R) (rest : list ascii) :
  (forall p r, r <> [] -> k p r = None) ->
  forall pos x,
    star_loop a k pos rest = Some x -> forallb (atom_matches a) rest = true.
Proof.
  intros Hk. induction rest as [|c rest IH]; intros pos x; cbn [star_loop forallb].
  - reflexivity.
  - destruct (atom_matches a c).
    + destruct (star_loop a k (S pos) rest) as [y|] eqn:Hloop.
      * intros _. exact (IH _ _ Hloop).
      * rewrite Hk by discriminate. discriminate.
    + rewrite Hk by discriminate. discriminate.
Qed.

(** What the database-name pattern matches: a slash and a non-empty run of
    word characters up to the end of the input. *)
Lemma database_name_match_shape
    (pos : nat) (rest : list ascii) (caps : captures) (x : nat * captures) :
  run database_name_pattern pos rest caps = Some x ->
  exists c name,
    rest = slash :: c :: name /\ forallb is_word (c :: name) = true.
Proof.
  unfold database_name_pattern. cbn [run].
  destruct rest as [|s rest]; [discriminate|]. cbv beta iota.
  cbn [atom_matches].
  destruct (decide (s = slash)) as [->|_]; [|discriminate].
  destruct rest as [|c name]; [discriminate|]. cbv beta iota.
  destruct (is_word c) eqn:Hc; [|discriminate].
  intros Hloop. apply star_loop_took_all in Hloop.
  - exists c, name. split; [reflexivity|]. cbn [forallb].
    rewrite Hc. exact Hloop.
  - intros p r Hr. apply after_name_only_at_end, Hr.
Qed.

Lemma database_name_scan_shape (rest : list ascii) :
  forall i b e caps,
    scan database_name_pattern i rest = Some (b, e, caps) ->
    exists pre c name,
      rest = pre ++ slash :: c :: name /\ forallb is_word (c :: name) = true.
Proof.
  induction rest as [|x rest IH]; intros i b e caps; cbn [scan].
  - destruct (run database_name_pattern i [] no_captures) as [[e' caps']|]
      eqn:Hrun; [|discriminate].
    apply database_name_match_shape in Hrun as (c & name & Hnil & _).
    discriminate.
  - destruct (run database_name_pattern i (x :: rest) no_captures)
      as [[e' caps']|] eqn:Hrun.
    + intros _.
      apply database_name_match_shape in Hrun as (c & name & Hrest & Hword).
      exists [], c, name. split; assumption.
    + intros Hscan. apply IH in Hscan as (pre & c & name & -> & Hword).
      exists (x :: pre), c, name. split; [reflexivity|exact Hword].
Qed.

Lemma last_word_of_name (c : ascii) (name : list ascii) :
  forallb is_word (c :: name) = true ->
  exists z, last (c :: name) = Some z /\ is_word z = true.
Proof.
  revert c. induction name as [|d name IH]; intros c; cbn [forallb].
  - intros Hc. apply andb_true_iff in Hc as [Hc _]. exists c. split; auto.
  - intros Hall. apply andb_true_iff in Hall as [_ Hall].
    destruct (IH d Hall) as (z & Hlast & Hz).
    exists z. split; [|exact Hz]. rewrite last_cons_cons. exact Hlast.
Qed.

(** [exec] of the database-name pattern finds nothing in a string without
    a slash, or whose last character is not a word character, from any
    offset. *)
Lemma database_name_exec_misses (str : string) (i : nat) :
  slash_free str = true \/ ends_in_word str = false ->
  exec (mkRegExp database_name_pattern i) str
  = (None, mkRegExp database_name_pattern 0).
Proof.
  intros Hbad. unfold exec. cbn [lastIndex source].
  destruct (length (list_ascii_of_string str) <? i)%nat; [reflexivity|].
  destruct (scan database_name_pattern i (drop i (list_ascii_of_string str)))
    as [[[b e] caps]|] eqn:Hscan; [|reflexivity].
  exfalso.
  apply database_name_scan_shape in Hscan as (pre & c & name & Hdrop & Hword).
  assert (Hstr : list_ascii_of_string str
                 = (take i (list_ascii_of_string str) ++ pre)
                   ++ slash :: c :: name).
  { rewrite <- app_assoc, <- Hdrop, take_drop. reflexivity. }
  destruct Hbad as [Hfree|Hend].
  - unfold slash_free in Hfree. rewrite Hstr, forallb_app in Hfree.
    apply andb_true_iff in Hfree as [_ Hfree]. cbn [forallb atom_matches] in Hfree.
    rewrite decide_True in Hfree by reflexivity. discriminate.
  - unfold ends_in_word in Hend. rewrite Hstr in Hend.
    change (slash :: c :: name) with ([slash] ++ c :: name) in Hend.
    rewrite app_assoc in Hend.
    destruct (last_word_of_name c name Hword) as (z & Hlast & Hz).
    rewrite last_app, Hlast in Hend. congruence.
Qed.

(** X13. A connection string without a slash, or one that is empty or
    whose last character is not a word character (a trailing slash, a
    database name ending in a dash), is refused: the constructor throws
    the [TypeError] of the failed destructuring, in whatever state the two
    patterns are; the database-name pattern is left at offset 0 and the
    server pattern is not run. *)
Theorem constructor_rejects_malformed (dbUrl : string) (i j : nat) :
  slash_free dbUrl = true \/ ends_in_word dbUrl = false ->
  constructor dbUrl (patterns_at i j) = (Throw not_iterable, patterns_at 0 j).
Proof.
  intros Hbad. unfold constructor, patterns_at.
  cbn [REG_DATABASE_NAME REG_SERVER_URL].
  rewrite (database_name_exec_misses dbUrl i Hbad). reflexivity.
Qed.

Lemma constructor_rejects_malformed_witness :
  constructor "localhost:27017" (patterns_at 0 0)
  = (Throw not_iterable, patterns_at 0 0) /\
  constructor "mongodb://localhost:27017/" (patterns_at 0 0)
  = (Throw not_iterable, patterns_at 0 0) /\
  constructor "mongodb://localhost:27017/gnc-test!" (patterns_at 0 0)
  = (Throw not_iterable, patterns_at 0 0).
Proof.
  split; [|split].
  - apply (constructor_rejects_malformed "localhost:27017" 0 0).
    left. vm_compute. reflexivity.
  - apply (constructor_rejects_malformed "mongodb://localhost:27017/" 0 0).
    right. vm_compute. reflexivity.
  - apply (constructor_rejects_malformed
             "mongodb://localhost:27017/gnc-test!" 0 0).
    right. vm_compute. reflexivity.
Defined.

(** The server pattern starts with the start-of-input assertion: it
    matches at offset 0 only. *)
Lemma server_url_only_at_start (rest : list ascii) :
  forall i, 1 <= i -> scan server_url_pattern i rest = None.
Proof.
  induction rest as [|c rest IH]; intros i Hi; cbn [scan];
    unfold server_url_pattern at 1; cbn [run];
    destruct i as [|i]; try lia; cbn [Nat.eqb].
  - reflexivity.
  - apply IH. lia.
Qed.

(** A match of the server pattern ends after a slash, hence not at 0. *)
Lemma star_loop_end_positive {R : Type} (a : atom)
    (k : nat -> list ascii -> option (nat * R)) :
  (forall p r x, k p r = Some x -> 1 <= fst x) ->
  forall rest pos x, star_loop a k pos rest = Some x -> 1 <= fst x.
Proof.
  intros Hk. induction rest as [|c rest IH]; intros pos x; cbn [star_loop].
  - apply Hk.
  - destruct (atom_matches a c).
    + destruct (star_loop a k (S pos) rest) as [y|] eqn:Hloop.
      * intros [= <-]. exact (IH _ _ Hloop).
      * apply Hk.
    + apply Hk.
Qed.

Lemma server_url_exec_lastIndex (str : string) (m : MatchArray) (re : RegExp) :
  exec (mkRegExp server_url_pattern 0) str = (Some m, re) ->
  exists e, re = mkRegExp server_url_pattern e /\ 1 <= e.
Proof.
  unfold exec. cbn [lastIndex source Nat.ltb Nat.leb]. rewrite drop_0.
  destruct (scan server_url_pattern 0 (list_ascii_of_string str))
    as [[[b e] caps]|] eqn:Hscan; [|discriminate].
  intros [= _ <-]. exists e. split; [reflexivity|].
  assert (Hrun : exists caps',
             run server_url_pattern 0 (list_ascii_of_string str) no_captures
             = Some (e, caps')).
  { destruct (list_ascii_of_string str) as [|c rest]; cbn [scan] in Hscan.
    - destruct (run server_url_pattern 0 [] no_captures) as [[e' caps']|];
        [|discriminate].
      injection Hscan as _ <- _. eexists. reflexivity.
    - destruct (run server_url_pattern 0 (c :: rest) no_captures)
        as [[e' caps']|].
      + injection Hscan as _ <- _. eexists. reflexivity.
      + rewrite server_url_only_at_start in Hscan by lia. discriminate. }
  destruct Hrun as [caps' Hrun]. rewrite server_url_run_start in Hrun.
  apply star_loop_end_positive in Hrun; [exact Hrun|].
  intros p r x. cbn [run]. destruct r as [|c r]; [discriminate|].
  destruct (atom_matches (Lit slash) c); [|discriminate].
  intros [= <-]. cbn [fst]. lia.
Qed.

Lemma server_url_exec_misses (str : string) (e : nat) :
  1 <= e ->
  exec (mkRegExp server_url_pattern e) str
  = (None, mkRegExp server_url_pattern 0).
Proof.
  intros He. unfold exec. cbn [lastIndex source].
  destruct (length (list_ascii_of_string str) <? e)%nat; [reflexivity|].
  rewrite server_url_only_at_start by exact He. reflexivity.
Qed.

(** X14. The patterns make construction go through a cycle of four: after
    a construction that succeeds from the initial pattern state, the next
    three constructions with the identical string all throw, and the third
    of them leaves the patterns in their initial state again. *)
Theorem constructor_cycle_of_four
    (dbUrl : string) (g : GNCDatabase) (ps1 : Patterns) :
  constructor dbUrl module_patterns = (Ret g, ps1) ->
  exists ps2 ps3,
    constructor dbUrl ps1 = (Throw not_iterable, ps2) /\
    constructor dbUrl ps2 = (Throw not_iterable, ps3) /\
    constructor dbUrl ps3 = (Throw not_iterable, module_patterns).
Proof.
  unfold constructor at 1.
  destruct (exec (REG_DATABASE_NAME module_patterns) dbUrl)
    as [[m1|] re1] eqn:Hexec1; [|discriminate].
  destruct (exec (REG_SERVER_URL module_patterns) dbUrl)
    as [[m2|] re2] eqn:Hexec2; [|discriminate].
  intros [= _ <-].
  pose proof (database_name_exec_lastIndex _ _ _ Hexec1) as ->.
  destruct (server_url_exec_lastIndex _ _ _ Hexec2) as (e & -> & He).
  cbn [REG_DATABASE_NAME REG_SERVER_URL module_patterns] in Hexec1.
  exists (patterns_at 0 e).
  exists (patterns_at (length (list_ascii_of_string dbUrl)) 0).
  unfold constructor, patterns_at. cbn [REG_DATABASE_NAME REG_SERVER_URL].
  rewrite database_name_exec_at_end, Hexec1.
  rewrite (server_url_exec_misses dbUrl e He).
  repeat split.
Qed.

Lemma constructor_cycle_of_four_witness :
  exists ps2 ps3,
    constructor gnc_url (patterns_at 29 26) = (Throw not_iterable, ps2) /\
    constructor gnc_url ps2 = (Throw not_iterable, ps3) /\
    constructor gnc_url ps3 = (Throw not_iterable, module_patterns).
Proof.
  apply (constructor_cycle_of_four gnc_url gnc_instance (patterns_at 29 26)).
  vm_compute. reflexivity.
Defined.

(** *** A write request while the database cannot be written *)

(** X20. A write request with its three parameters, arriving while the
    backend is not usable or before the collections were opened, is
    answered 500 with code INTERNAL and the write error of the metric as
    message; the database is left as it was. *)
Theorem setReading_during_fault
    (m : Metric) (req : Request) (sid val seq : string) (w : World) :
  Mongo.io_ok (driver w) = false \/ collection_field m (this w) = None ->
  query req !! "sensorId" = Some sid ->
  query req !! "value" = Some val ->
  query req !! "seqNum" = Some seq ->
  sid <> "" -> val <> "" -> seq <> "" ->
  exists w',
    setReading m req w
    = (Ret (mkResponse 500
              (JsonStatus
                 (mkStatusReport 500 "INTERNAL"
                    (toString (write_error (this w) m))))),
       w') /\
    driver w' = driver w.
Proof.
  intros Hbad Hsid Hval Hseq Nsid Nval Nseq.
  rewrite (setReading_run m req sid val seq w) by assumption.
  destruct (collection_field m (this w)) as [h|] eqn:Hh.
  - destruct Hbad as [Hio|Hnone]; [|discriminate].
    rewrite (write_fault m sid val seq h (side_logged m sid val w) Hio Hh).
    eexists. split; reflexivity.
  - rewrite (write_unopened m sid val seq (side_logged m sid val w) Hh).
    eexists. split; reflexivity.
Qed.

Lemma setReading_during_fault_witness :
  exists w',
    setReading Distance (write_request "2" "7" "1") faulty_world
    = (Ret (mkResponse 500
              (JsonStatus
                 (mkStatusReport 500 "INTERNAL"
                    (toString (write_error (this faulty_world) Distance))))),
       w') /\
    driver w' = driver faulty_world.
Proof.
  apply (setReading_during_fault Distance (write_request "2" "7" "1")
           "2" "7" "1" faulty_world).
  - left. vm_compute. reflexivity.
  - vm_compute. reflexivity.
  - vm_compute. reflexivity.
  - vm_compute. reflexivity.
  - discriminate.
  - discriminate.
  - discriminate.
Defined.

(** ** Properties of the page helpers *)

Import JsString WebPage.

(** *** Trimming *)

Lemma trim_start_idem (l : list ascii) :
  trim_start (trim_start l) = trim_start l.
Proof.
  induction l as [|c l IH]; cbn [trim_start]; [reflexivity|].
  destruct (is_white_space c) eqn:Hc; [exact IH|].
  cbn [trim_start]. rewrite Hc. reflexivity.
Qed.

Lemma trim_start_head (l r : list ascii) (c : ascii) :
  trim_start l = c :: r -> is_white_space c = false.
Proof.
  induction l as [|x l IH]; cbn [trim_start]; [discriminate|].
  destruct (is_white_space x) eqn:Hx; [exact IH|].
  intros [= -> _]. exact Hx.
Qed.

Lemma trim_start_keeps_last (a : list ascii) (c : ascii) :
  is_white_space c = false -> exists x, trim_start (a ++ [c]) = x ++ [c].
Proof.
  intros Hc. induction a as [|y a IH]; cbn [app trim_start].
  - rewrite Hc. exists []. reflexivity.
  - destruct (is_white_space y); [exact IH|].
    exists (y :: a). reflexivity.
Qed.

Lemma trim_end_idem (l : list ascii) : trim_end (trim_end l) = trim_end l.
Proof.
  unfold trim_end. rewrite rev_involutive, trim_start_idem. reflexivity.
Qed.

(** Trimming both ends once is enough. *)
Lemma trim_list_idem (l : list ascii) :
  trim_end (trim_start (trim_end (trim_start l))) = trim_end (trim_start l).
Proof.
  destruct (trim_start l) as [|c r] eqn:Hl; [reflexivity|].
  pose proof (trim_start_head _ _ _ Hl) as Hc.
  assert (Hkeep : exists x, trim_end (c :: r) = c :: x).
  { unfold trim_end. cbn [rev].
    destruct (trim_start_keeps_last (rev r) c Hc) as [x Hx].
    rewrite Hx, rev_app_distr. eexists. reflexivity. }
  destruct Hkeep as [x Hx].
  rewrite Hx at 1. cbn [trim_start]. rewrite Hc, <- Hx.
  apply trim_end_idem.
Qed.

Lemma trim_idem (s : string) : trim (trim s) = trim s.
Proof.
  unfold trim. rewrite list_ascii_of_string_of_list_ascii, trim_list_idem.
  reflexivity.
Qed.

Lemma length_positive (s : string) :
  (0 <? String.length s)%nat = true -> s <> "".
Proof. destruct s; [discriminate|]. intros _. discriminate. Qed.

(** X16. Every value [getNonEmptyValues] returns is the trimmed value of
    the same key of its argument; it is not empty and trimming it again
    changes nothing, so it has no white space at either end. No key is
    invented. *)
Theorem getNonEmptyValues_values
    (values : gmap string string) (k v : string) :
  getNonEmptyValues values !! k = Some v ->
  v <> "" /\ trim v = v /\
  exists v0, values !! k = Some v0 /\ v = trim v0.
Proof.
  unfold getNonEmptyValues. rewrite lookup_omap.
  destruct (values !! k) as [v0|]; cbn [mbind option_bind]; [|discriminate].
  destruct (negb (String.length v0 =? 0)%nat) eqn:Hne; cbn [andb];
    [|discriminate].
  destruct (0 <? String.length (trim v0))%nat eqn:Hpos; [|discriminate].
  intros [= <-]. split; [|split].
  - apply length_positive, Hpos.
  - apply trim_idem.
  - exists v0. split; reflexivity.
Qed.

Lemma getNonEmptyValues_values_witness :
  "x y" <> "" /\ trim "x y" = "x y" /\
  exists v0,
    (<["a" := "  x y  "]> (<["b" := "   "]> {["c" := ""]}) : gmap string string)
      !! "a" = Some v0
    /\ "x y" = trim v0.
Proof.
  apply (getNonEmptyValues_values
           (<["a" := "  x y  "]> (<["b" := "   "]> {["c" := ""]})) "a" "x y").
  vm_compute. reflexivity.
Defined.

(** X17. [getNonEmptyValues] is idempotent: applied to its own result it
    returns that result. *)
Theorem getNonEmptyValues_idempotent (values : gmap string string) :
  getNonEmptyValues (getNonEmptyValues values) = getNonEmptyValues values.
Proof.
  apply map_eq. intros k. unfold getNonEmptyValues. rewrite !lookup_omap.
  destruct (values !! k) as [v0|]; cbn [mbind option_bind]; [|reflexivity].
  destruct (negb (String.length v0 =? 0)%nat); cbn [andb]; [|reflexivity].
  destruct (0 <? String.length (trim v0))%nat eqn:Hpos;
    cbn [mbind option_bind]; [|reflexivity].
  rewrite trim_idem, Hpos.
  destruct (trim v0) as [|c t]; [discriminate|]. reflexivity.
Qed.

(** *** Highlighting *)

Lemma lower_char_idem (c : ascii) : lower_char (lower_char c) = lower_char c.
Proof. destruct c as [[] [] [] [] [] [] [] []]; reflexivity. Qed.

Lemma toLowerCase_idem (s : string) :
  toLowerCase (toLowerCase s) = toLowerCase s.
Proof.
  induction s as [|c s IH]; cbn [toLowerCase]; [reflexivity|].
  rewrite lower_char_idem, IH. reflexivity.
Qed.

Lemma split_from_nonempty (sep : ascii) (s current : string) :
  split_from sep current s <> [].
Proof.
  revert current. induction s as [|c s IH]; intros current; cbn [split_from].
  - discriminate.
  - destruct (decide (c = sep)); [discriminate|apply IH].
Qed.

(** A term that does not occur leaves the lower-cased line. *)
Lemma highlight_absent (line term : string) :
  occurs term line = false -> highlight line term = toLowerCase line.
Proof.
  unfold occurs, highlight, replace.
  destruct (index 0 (toLowerCase term) (toLowerCase line));
    [discriminate|reflexivity].
Qed.

Lemma occurs_lowered (term line : string) :
  occurs term (toLowerCase line) = occurs term line.
Proof. unfold occurs. rewrite toLowerCase_idem. reflexivity. Qed.

Lemma none_occurs_lowered (line : string) (termArray : list string) :
  forallb (fun term => negb (occurs term (toLowerCase line))) termArray
  = forallb (fun term => negb (occurs term line)) termArray.
Proof.
  induction termArray as [|term rest IH]; cbn [forallb]; [reflexivity|].
  rewrite occurs_lowered, IH. reflexivity.
Qed.

Lemma fold_highlight_absent (termArray : list string) (line : string) :
  forallb (fun term => negb (occurs term line)) termArray = true ->
  termArray <> [] ->
  fold_left highlight termArray line = toLowerCase line.
Proof.
  revert line. induction termArray as [|term rest IH]; intros line;
    [contradiction|].
  cbn [forallb fold_left]. intros Hall _.
  apply andb_true_iff in Hall as [Hterm Hrest].
  apply negb_true_iff in Hterm. rewrite (highlight_absent _ _ Hterm).
  destruct rest as [|term' rest']; [reflexivity|].
  rewrite IH.
  - apply toLowerCase_idem.
  - rewrite none_occurs_lowered. exact Hrest.
  - discriminate.
Qed.

(** X18. When none of the space-separated terms occurs in any line
    (compared in lower case), [generateCustomHTML] returns the lines in
    lower case, one for one: no markup is added, but the case of the text
    is lost. *)
Theorem generateCustomHTML_without_match (lines : list string) (terms : string) :
  no_term_occurs lines terms = true ->
  generateCustomHTML lines terms = List.map toLowerCase lines.
Proof.
  unfold no_term_occurs, generateCustomHTML.
  induction lines as [|line lines IH]; cbn [forallb List.map];
    [reflexivity|].
  intros Hall. apply andb_true_iff in Hall as [Hline Hlines].
  rewrite (IH Hlines), fold_highlight_absent; [reflexivity|exact Hline|].
  apply split_from_nonempty.
Qed.

Lemma generateCustomHTML_without_match_witness :
  generateCustomHTML ["Pod Speed"; "Brake TEMP"] "nav wheel"
  = List.map toLowerCase ["Pod Speed"; "Brake TEMP"].
Proof.
  apply (generateCustomHTML_without_match ["Pod Speed"; "Brake TEMP"]
           "nav wheel").
  vm_compute. reflexivity.
Defined.

Lemma substring_whole (s : string) :
  String.substring 0 (String.length s) s = s.
Proof.
  induction s as [|c s IH]; cbn [String.substring String.length]; [reflexivity|].
  rewrite IH. reflexivity.
Qed.

(** X19. An empty search text is not ignored: [terms.split] yields one
    empty term, which is found at the start of every line, so every line
    comes back in lower case behind an empty highlight element. *)
Theorem generateCustomHTML_empty_terms (lines : list string) :
  generateCustomHTML lines ""
  = List.map (fun line => getHTMLString "" +:+ toLowerCase line) lines.
Proof.
  unfold generateCustomHTML. cbn [split split_from fold_left].
  apply map_ext. intros line. unfold highlight, replace.
  cbn [toLowerCase].
  assert (Hindex : index 0 "" (toLowerCase line) = Some 0)
    by (destruct (toLowerCase line); reflexivity).
  rewrite Hindex. cbn [String.length Nat.add].
  rewrite Nat.sub_0_r, substring_whole.
  assert (Hnone : String.substring 0 0 (toLowerCase line) = "")
    by (destruct (toLowerCase line); reflexivity).
  rewrite Hnone. reflexivity.
Qed.
